(* ===== verification/_CoqProject ===== *)
-Q . S2P
Prelude.v
PyVal.v
PyDict.v
Repr.v
Cache.v
PyAst.v
Transformer.v
Fence.v
Client.v
Driver.v
Scenarios.v
