(* ===== verification/Prelude.v ===== *)
(** * A verification development of AutoPyFunc ([src/AutoPyFunc.py])

    AutoPyFunc is a source-to-source compiler for Python.  It parses a
    script, replaces every marker call [sid("description")] or
    [sid(name, description)] by the name of a function that a chat
    backend writes for it, and writes the generated functions, joined by
    blank lines, followed by the rewritten script.  Generated code is
    kept in [function_cache.json] under the key [str((name, description))]
    so that a marker seen before costs no request.

    ** The parts and the files that model them

    - [Prelude] (this file): the exception type [pyexc], the state monad
      [pyst] whose exceptions keep the state reached so far (a Python
      mutation survives a later exception), [mapM] for [generic_visit]
      over a field list, [str_join] for ['\n\n'.join], the rewrite
      database [pysimpl] and the hint database [pyauto].
    - [PyVal]: the constants a marker can carry ([pyval]: [str], [int],
      [bool], [None]), Python's [==] on them ([py_eqb]: [1 == True]),
      the cache key [pykey], [str.replace(' ', '_')].
    - [PyDict]: a Python dict as an insertion-ordered association list
      keyed by [==] ([dict_get], [dict_set], [dict_of_list]) and its
      invariant [dict_wf] (no two keys [==]).
    - [Repr]: [repr] of [str] and [int] on Latin-1 text, [str((a, b))]
      ([str_pair]), and [eval] of such a text back to a key ([eval_key]).
    - [Cache]: [load_cache] and [save_cache] (lines 115-133) over a file
      system [fsys] holding [function_cache.json] as [json] sees it.
    - [PyAst]: Python's [ast] trees as [NodeTransformer] walks them:
      [Name], [Constant] and [Call], which [visit_Call] looks inside,
      and [Node cls fields] for every other class, with its fields in
      [_fields] order ([node], [field], [item]).
    - [Transformer]: [SidFunctionTransformer.visit_Call] (lines 51-79)
      as [visit_Call]/[visit_marker], [NodeTransformer.visit] and
      [generic_visit] as [visit] and [generic_visit], the pass over the
      module as [visit_module], over the state [tstate]
      ([function_codes], [function_cache], the cache file, the log, and
      the state of the generator).  The generator ([generate_function])
      is a [Section] variable, so the pass is proved for every backend.
      A pure reading of the pass ([sites], [rewrite]) lists the call
      sites in visiting order and the rewritten tree; [site_step] is the
      cache protocol at one site and [run_sites] folds it; [misses]
      lists the keys that miss, one per [==]-class.
    - [Fence]: the [re.search] of line 107 with Python's backtracking
      ([regex_search]), the direct scan [first_fence], and a reading of
      the pattern by [str.partition] ([fenced_block]) that shares no
      code with either.
    - [Client]: [get_token] (lines 25-42) and [generate_function] (lines
      81-113) over a [client] holding the token, its time, the clock,
      the replies of both endpoints and the requests sent.
    - [Driver]: [__init__] ([init_transformer]), [sid_compiler] (lines
      135-153), [interactive_mode] (155-158), the argument handling of
      [__main__] (160-169) over a [world] of files, cache file, client,
      log and standard output.
    - [Scenarios]: concrete worlds (the example of the specification
      among them) on which the hypotheses of the driver theorems hold,
      and the witnesses that apply those theorems there.

    ** What the theorems show

    - The pass refines its pure reading: [visit_module] is [run_sites]
      on [sites_module] and returns [rewrite_module], or raises
      [AttributeError] exactly when a marker argument is not a literal
      ([Transformer.visit_module_refines]); a whole run then ends with
      that exception and writes no output ([Driver.sid_compiler_crash]).
    - The cache protocol: a hit appends the cached text and changes
      nothing else; a miss calls the generator once, stores and saves;
      after a pass every marker key is cached; a pass whose keys are
      all cached calls no generator and leaves the file alone; the
      cache keeps its invariant ([visit_sid_desc_hit],
      [visit_sid_named_miss], [visit_module_all_cached],
      [visit_module_pool], [visit_module_cache_inv]).
    - The cache file: [eval(str((a, b))) == (a, b)] for every pair of
      constants, and [str_pair] is injective ([Repr.str_pair_eval_roundtrip]);
      saving then loading gives the cache back ([Cache.load_save_roundtrip]);
      loading never fails the run; a key that does not unpack truncates
      the file ([save_cache_unpack_error_wipes]), and a pass that starts
      from such a cache and misses once leaves a file that loads as no
      cache at all ([Transformer.visit_module_bad_key_truncates]).
    - A second run on the same input sends no request, leaves the cache
      file alone and writes the same output ([Driver.sid_compiler_rerun]).
    - The client: one chat request per call, the possible results and
      the branch that gives each, the token refresh and its failure.
    - [Fence.extract_code_fenced_block]: [extract_code] (the
      backtracking [re.search] and its fallback) takes the text between
      the first fence, the newline after it and the next fence, as
      three [str.partition]s find them.
    - Whole runs for any program: with no cache file and a backend
      whose every reply is one 200 text that compiles, the output is
      that code once per marker key followed by the rewritten module,
      and the cache file holds it under each key
      ([Driver.sid_compiler_constant_backend], the example of the
      specification as an instance); a backend answering with another
      status gets ["Response 404"] written as code and cached
      ([Driver.sid_compiler_non200_cached]).
    - The driver's failure paths: an unreadable input or an unwritable
      output is logged, a [SyntaxError] of [ast.parse] is not caught
      ([Driver.sid_compiler_failures]); the command line runs the
      compiler only for two non-empty arguments; interactive mode never
      touches the cache.
    - Counting: a pass calls the generator once per marker key that
      misses, at most once per site and never twice for [==] keys
      ([Transformer.visit_module_generator_calls]); composed with the
      client, a run sends exactly that many chat requests
      ([Driver.sid_compiler_requests]).
    - Liveness of the token: under a clock that never goes back, a
      session of calls ([Client.session]) fetches a new token within a
      bounded number of calls once the clock passes [token_time + 600]
      ([Client.token_refresh_eventually]).
    - Names in the output: the pass keeps every [Name.id] a [str] when
      the two-argument markers name their functions with [str]s
      ([Transformer.visit_module_str_names]).

    ** Bounds, fuel, environment

    Every definition is structural: the traversal recurses on the tree
    and on its field lists, the parsers and [regex_search] on the text,
    so no fuel is needed and every function is total.  [time.time()],
    the token endpoint and the chat endpoint are functions of the number
    of readings or requests made so far, so a run is a function of its
    environment; times are rationals ([Q]), not floats.  Integers are
    Python integers ([Z]), without a width.

    ** Not modelled

    The logging format (lines 15-20: a log line is an event of
    [log_event]); the HTTP transport ([requests], [httpx], headers,
    timeouts: a reply is given as data); the text layer of JSON (the
    cache file is a list of members); [ast.parse], [astunparse.unparse]
    and [compile] (parameters of the sections that use them); constants
    other than [str], [int], [bool] and [None] (float, bytes, complex,
    tuple constants); text outside Latin-1; [asyncio] (each
    [asyncio.run] is a call that returns); command-line options other
    than the two positional arguments. *)

From Stdlib Require Import String Ascii List ZArith Lia Bool.
Import ListNotations.

Declare Scope py_scope.
Delimit Scope py_scope with py.

(** ** Python exceptions that the modelled code can raise or absorb *)

Inductive pyexc : Type :=
| AttributeError   (* [.s] of a non-[Constant] node, [.replace] of a non-str *)
| TypeError
| ValueError       (* unpacking a cache key that is not a pair *)
| SyntaxError      (* [eval] or [compile] of text outside the grammar *)
| OSError.         (* a file cannot be opened *)

(** ** A state monad whose exceptions keep the state reached so far

    Python keeps every mutation done before an exception is raised
    (the cache file written by [save_cache] stays written when a later
    marker raises), so [bind] passes the state on in both branches. *)

Inductive res (A : Type) : Type :=
| Ok (a : A)
| Exc (e : pyexc).
Arguments Ok {A} a.
Arguments Exc {A} e.

Definition pyst (S A : Type) : Type := S -> S * res A.

Section Monad.
Context {S : Type}.

Definition ret {A} (a : A) : pyst S A := fun s => (s, Ok a).

Definition bind {A B} (m : pyst S A) (k : A -> pyst S B) : pyst S B :=
  fun s =>
    match m s with
    | (s', Ok a) => k a s'
    | (s', Exc e) => (s', Exc e)
    end.

Definition raise {A} (e : pyexc) : pyst S A := fun s => (s, Exc e).
Definition get : pyst S S := fun s => (s, Ok s).
Definition modify (f : S -> S) : pyst S unit := fun s => (f s, Ok tt).

(** [map] inside the monad, left to right: the order in which
    [ast.NodeTransformer.generic_visit] visits the items of a list
    field. *)
Fixpoint mapM {A B} (f : A -> pyst S B) (l : list A) : pyst S (list B) :=
  match l with
  | [] => ret []
  | x :: xs => bind (f x) (fun y => bind (mapM f xs) (fun ys => ret (y :: ys)))
  end.
End Monad.

Notation "x <- m ;; k" := (bind m (fun x => k))
  (at level 61, m at next level, right associativity) : py_scope.
Notation "m ;;; k" := (bind m (fun _ => k))
  (at level 61, right associativity) : py_scope.

Open Scope py_scope.

(** ** Monad laws, pointwise in the state *)

Create Rewrite HintDb pysimpl.
Create HintDb pyauto.

Section MonadLaws.
Context {S : Type}.

Lemma bind_ret_l {A B} (a : A) (k : A -> pyst S B) s :
  bind (ret a) k s = k a s.
Proof. reflexivity. Qed.

Lemma bind_ret_r {A} (m : pyst S A) s : bind m ret s = m s.
Proof. unfold bind, ret. destruct (m s) as [s' []]; reflexivity. Qed.

Lemma bind_assoc {A B C} (m : pyst S A) (k : A -> pyst S B) (h : B -> pyst S C) s :
  bind (bind m k) h s = bind m (fun a => bind (k a) h) s.
Proof. unfold bind. destruct (m s) as [s' []]; reflexivity. Qed.

Lemma bind_ok {A B} (m : pyst S A) (k : A -> pyst S B) s s' a :
  m s = (s', Ok a) -> bind m k s = k a s'.
Proof. intros H. unfold bind. rewrite H. reflexivity. Qed.

Lemma bind_exc {A B} (m : pyst S A) (k : A -> pyst S B) s s' e :
  m s = (s', Exc e) -> bind m k s = (s', Exc e).
Proof. intros H. unfold bind. rewrite H. reflexivity. Qed.

Lemma mapM_app {A B} (f : A -> pyst S B) l1 l2 s :
  mapM f (l1 ++ l2) s =
  bind (mapM f l1) (fun ys1 => bind (mapM f l2) (fun ys2 => ret (ys1 ++ ys2))) s.
Proof.
  revert s. induction l1 as [|x l1 IH]; intros s; simpl.
  - unfold bind, ret. destruct (mapM f l2 s) as [s' []]; reflexivity.
  - unfold bind, ret in *.
    destruct (f x s) as [s1 [y|e]]; [|reflexivity].
    rewrite IH.
    destruct (mapM f l1 s1) as [s2 [ys|e]]; [|reflexivity].
    destruct (mapM f l2 s2) as [s3 [zs|e]]; reflexivity.
Qed.
End MonadLaws.

#[export] Hint Rewrite @bind_ret_l @bind_assoc : pysimpl.

(** ** Strings *)

Lemma string_app_assoc (a b c : string) : ((a ++ b) ++ c = a ++ (b ++ c))%string.
Proof. induction a as [|x a IH]; simpl; [reflexivity | now rewrite IH]. Qed.

Lemma string_app_nil_r (a : string) : (a ++ "" = a)%string.
Proof. induction a as [|x a IH]; simpl; [reflexivity | now rewrite IH]. Qed.

#[export] Hint Rewrite string_app_assoc string_app_nil_r : pysimpl.

(** [s] starts with [p]: what follows it. *)
Fixpoint strip_prefix (p s : string) : option string :=
  match p, s with
  | EmptyString, _ => Some s
  | String a p', String b s' => if Ascii.eqb a b then strip_prefix p' s' else None
  | String _ _, EmptyString => None
  end.

(** One-character string. *)
Definition chr (c : ascii) : string := String c EmptyString.

(** [Python]: [sep.join(parts)]. *)
Fixpoint str_join (sep : string) (parts : list string) : string :=
  match parts with
  | [] => ""
  | [p] => p
  | p :: ps => (p ++ sep ++ str_join sep ps)%string
  end.

(** ** Tactics *)

(** Unfold the monad operations and reduce. *)
Ltac pyred :=
  repeat (unfold bind, ret, raise, get, modify in *; simpl in *).

(** Case on the outcome of a monadic computation in the goal. *)
Ltac case_run m :=
  let s := fresh "s" in let r := fresh "r" in let E := fresh "Erun" in
  destruct m as [s r] eqn:E; destruct r.

(** ** Collecting optional lists, and [mapM] against a pure specification *)

(** Lift a possibly raising value into the monad. *)
Definition liftR {S A} (r : res A) : pyst S A := fun s => (s, r).

(** Concatenate [g a] over [l]; [None] as soon as one is [None]. *)
Fixpoint concat_opt {A X} (g : A -> option (list X)) (l : list A) : option (list X) :=
  match l with
  | [] => Some []
  | a :: l' =>
      match g a, concat_opt g l' with
      | Some x, Some y => Some (x ++ y)
      | _, _ => None
      end
  end.

Section MapMSpec.
Context {S A B X : Type}.
Variable run : list X -> S -> S.
Hypothesis run_nil : forall s, run [] s = s.
Hypothesis run_app : forall l1 l2 s, run (l1 ++ l2) s = run l2 (run l1 s).

(** If each item's computation is described by [run] over the items
    [g] lists for it, so is the whole [mapM]. *)
Lemma mapM_run (f : A -> pyst S B) (g : A -> option (list X)) (h : A -> B) (l : list A) :
  Forall (fun a => forall xs s, g a = Some xs -> f a s = (run xs s, Ok (h a))) l ->
  forall xs s, concat_opt g l = Some xs -> mapM f l s = (run xs s, Ok (map h l)).
Proof.
  induction 1 as [|a l Ha Hl IH]; simpl; intros xs s Hxs.
  - injection Hxs as <-. now rewrite run_nil.
  - destruct (g a) as [x|] eqn:Eg; [|discriminate].
    destruct (concat_opt g l) as [y|] eqn:Ec; [|discriminate].
    injection Hxs as <-. unfold bind. rewrite (Ha x s eq_refl), (IH y _ eq_refl), run_app.
    reflexivity.
Qed.

(** If one item raises, so does the whole [mapM]. *)
Lemma mapM_raise (f : A -> pyst S B) (g : A -> option (list X)) (h : A -> B) (e : pyexc)
      (l : list A) :
  Forall (fun a => (forall xs s, g a = Some xs -> f a s = (run xs s, Ok (h a))) /\
                   (g a = None -> forall s, exists s', f a s = (s', Exc e))) l ->
  concat_opt g l = None -> forall s, exists s', mapM f l s = (s', Exc e).
Proof.
  induction 1 as [|a l [Ha Ha'] Hl IH]; simpl; [discriminate|]. intros Hn s.
  unfold bind. destruct (g a) as [x|] eqn:Eg.
  - rewrite (Ha x s eq_refl). destruct (concat_opt g l) as [y|]; [discriminate|].
    destruct (IH eq_refl (run x s)) as [s' ->]. eauto.
  - destruct (Ha' eq_refl s) as [s' ->]. eauto.
Qed.
End MapMSpec.

(** Append two optional lists, [None] if either is. *)
Definition oapp {X} (a b : option (list X)) : option (list X) :=
  match a, b with
  | Some x, Some y => Some (x ++ y)
  | _, _ => None
  end.

(** [o] is a list all of whose elements satisfy [p]. *)
Definition all_some {X} (p : X -> bool) (o : option (list X)) : Prop :=
  exists xs, o = Some xs /\ forallb p xs = true.

Lemma oapp_all_some {X} (p : X -> bool) (o1 o2 : option (list X)) :
  all_some p (oapp o1 o2) -> all_some p o1 /\ all_some p o2.
Proof.
  intros (xs & E & H). destruct o1 as [a|], o2 as [b|]; try discriminate.
  injection E as <-. rewrite forallb_app in H. apply andb_true_iff in H as [Ha Hb].
  split; eexists; eauto.
Qed.

Lemma concat_opt_all_some {A X} (g : A -> option (list X)) (p : X -> bool) (l : list A) :
  all_some p (concat_opt g l) -> Forall (fun a => all_some p (g a)) l.
Proof.
  induction l as [|a l IH]; simpl; intros H; [constructor|].
  destruct H as (xs & E & H).
  destruct (g a) as [x|] eqn:Eg, (concat_opt g l) as [y|]; try discriminate.
  injection E as <-. rewrite forallb_app in H. apply andb_true_iff in H as [Ha Hb].
  constructor; [eexists; eauto | apply IH; eexists; eauto].
Qed.

(** [f] keeps [q] on the elements where it is known to. *)
Lemma forallb_map_pres {A} (q : A -> bool) (f : A -> A) (R : A -> Prop) (l : list A) :
  Forall (fun a => R a -> q a = true -> q (f a) = true) l -> Forall R l ->
  forallb q l = true -> forallb q (map f l) = true.
Proof.
  induction 1 as [|a l Ha Hl IH]; intros HR Hq; [reflexivity|].
  inversion HR as [|? ? HRa HRl]; subst. simpl in *. apply andb_true_iff in Hq as [Hqa Hql].
  rewrite (Ha HRa Hqa). simpl. exact (IH HRl Hql).
Qed.
