(* ===== verification/PyVal.v ===== *)
(** * Python constant values, their equality, and [str.replace]

    The values that can sit in a marker call's [ast.Constant] argument
    and therefore in a cache key ([SidFunctionTransformer.visit_Call],
    [src/AutoPyFunc.py] lines 51-77): [str], [int], [bool], [None].
    Python's [==] identifies [True] with [1] and [False] with [0]; a
    dict lookup ([cache_key in self.function_cache], line 69) uses
    that equality, so it is modelled as [py_eqb] and not as Rocq's [=].
    Strings are Rocq strings: each character is a code point in
    [0, 255] (Latin-1), which covers the escaping rules of [repr] for
    those code points exactly (see [Repr.v]). *)

From Stdlib Require Import String Ascii List ZArith Lia Bool.
From Stdlib Require Import Setoid Morphisms RelationClasses.
From S2P Require Import Prelude.
Import ListNotations.

Inductive pyval : Type :=
| PStr (s : string)
| PInt (z : Z)
| PBool (b : bool)
| PNone.

(** The integer a number-like value stands for ([bool] is a subclass
    of [int]). *)
Definition num_of (v : pyval) : option Z :=
  match v with
  | PInt z => Some z
  | PBool b => Some (if b then 1 else 0)%Z
  | _ => None
  end.

(** Python's [==] on these values. *)
Definition py_eqb (a b : pyval) : bool :=
  match a, b with
  | PStr x, PStr y => String.eqb x y
  | PNone, PNone => true
  | _, _ =>
      match num_of a, num_of b with
      | Some x, Some y => Z.eqb x y
      | _, _ => false
      end
  end.

Definition py_eq (a b : pyval) : Prop := py_eqb a b = true.

(** A cache key as [eval] can give it back: the pair the transformer
    builds ([cache_key = (function_name, description)], line 68) or a
    single value (a hand-edited cache file whose key evaluates to a
    non-tuple). *)
Inductive pykey : Type :=
| KPair (a b : pyval)
| KAtom (v : pyval).

Definition key_eqb (k1 k2 : pykey) : bool :=
  match k1, k2 with
  | KPair a b, KPair c d => py_eqb a c && py_eqb b d
  | KAtom a, KAtom b => py_eqb a b
  | _, _ => false
  end.

(** [s.replace(old, new)] for one-character [old] and [new]. *)
Fixpoint str_replace_char (old new : ascii) (s : string) : string :=
  match s with
  | EmptyString => EmptyString
  | String c s' =>
      String (if Ascii.eqb c old then new else c) (str_replace_char old new s')
  end.

(** [description.s.replace(' ', '_')] (line 56): the 1-argument form
    derives the function name from the description. *)
Definition space_to_underscore (s : string) : string :=
  str_replace_char " "%char "_"%char s.

(** ** Equality lemmas *)

Lemma py_eqb_refl (a : pyval) : py_eqb a a = true.
Proof. destruct a; simpl; try apply String.eqb_refl; try apply Z.eqb_refl; reflexivity. Qed.

Lemma py_eqb_sym (a b : pyval) : py_eqb a b = py_eqb b a.
Proof.
  destruct a, b; simpl; try reflexivity;
    try apply String.eqb_sym; try apply Z.eqb_sym; destruct b; try destruct b0; reflexivity.
Qed.

Lemma py_eqb_trans (a b c : pyval) :
  py_eqb a b = true -> py_eqb b c = true -> py_eqb a c = true.
Proof.
  destruct a, b, c; simpl; intros H1 H2; try discriminate; try reflexivity;
    repeat match goal with
    | H : String.eqb _ _ = true |- _ => apply String.eqb_eq in H
    | H : Z.eqb _ _ = true |- _ => apply Z.eqb_eq in H
    | b : bool |- _ => destruct b
    end; subst; try discriminate;
    try apply String.eqb_refl; try apply Z.eqb_eq; try lia; reflexivity.
Qed.

#[export] Instance py_eq_Equivalence : Equivalence py_eq.
Proof.
  split; unfold py_eq.
  - intros a. apply py_eqb_refl.
  - intros a b H. now rewrite py_eqb_sym.
  - intros a b c. apply py_eqb_trans.
Qed.

Lemma key_eqb_refl (k : pykey) : key_eqb k k = true.
Proof. destruct k; simpl; now rewrite ?py_eqb_refl. Qed.

Lemma key_eqb_sym (k1 k2 : pykey) : key_eqb k1 k2 = key_eqb k2 k1.
Proof. destruct k1, k2; simpl; now rewrite ?(py_eqb_sym a), ?(py_eqb_sym b), ?(py_eqb_sym v). Qed.

Lemma key_eqb_trans (k1 k2 k3 : pykey) :
  key_eqb k1 k2 = true -> key_eqb k2 k3 = true -> key_eqb k1 k3 = true.
Proof.
  destruct k1, k2, k3; simpl; intros H1 H2; try discriminate;
    repeat match goal with H : _ && _ = true |- _ => apply andb_prop in H; destruct H end;
    try (apply andb_true_intro; split); eauto using py_eqb_trans.
Qed.

#[export] Hint Resolve py_eqb_refl key_eqb_refl : pyauto.

(** ** [str.replace] *)

Lemma str_replace_char_length (o n : ascii) (s : string) :
  String.length (str_replace_char o n s) = String.length s.
Proof. induction s; simpl; congruence. Qed.

(** After the replacement no [old] character is left, when [new]
    differs from it. *)
Fixpoint str_has (c : ascii) (s : string) : bool :=
  match s with
  | EmptyString => false
  | String d s' => Ascii.eqb d c || str_has c s'
  end.

Lemma str_replace_char_removes (o n : ascii) (s : string) :
  o <> n -> str_has o (str_replace_char o n s) = false.
Proof.
  intros Hne. induction s as [|c s IH]; simpl; [reflexivity|].
  rewrite IH, orb_false_r.
  destruct (Ascii.eqb_spec c o) as [->|Hc].
  - apply Ascii.eqb_neq. congruence.
  - now apply Ascii.eqb_neq.
Qed.

(** A string without the [old] character is left unchanged. *)
Lemma str_replace_char_id (o n : ascii) (s : string) :
  str_has o s = false -> str_replace_char o n s = s.
Proof.
  induction s as [|c s IH]; simpl; [reflexivity|].
  intros H. apply orb_false_iff in H as [Hc Hs].
  now rewrite Hc, IH.
Qed.
