(* ===== verification/PyDict.v ===== *)
(** * Python [dict] as an insertion-ordered association list

    A Python dict keeps its keys in insertion order, compares keys with
    [==], and [d[k] = v] on a key that is already present (up to [==])
    replaces the value in place and keeps the stored key.  The cache
    ([self.function_cache], [src/AutoPyFunc.py] lines 69-73, 120, 130)
    and the JSON object read back by [json.load] (line 119) are such
    dicts.  The key equality is a parameter [keq] of the [Section]:
    [key_eqb] for the cache, [String.eqb] for the JSON object. *)

From Stdlib Require Import List Bool Lia.
From S2P Require Import Prelude.
Import ListNotations.

Section PyDict.
Context {K V : Type} (keq : K -> K -> bool).

Definition dict : Type := list (K * V).

(** [k in d] *)
Fixpoint dict_mem (k : K) (d : dict) : bool :=
  match d with
  | [] => false
  | (k', _) :: d' => keq k' k || dict_mem k d'
  end.

(** [d[k]], [None] standing for [KeyError] *)
Fixpoint dict_get (k : K) (d : dict) : option V :=
  match d with
  | [] => None
  | (k', v) :: d' => if keq k' k then Some v else dict_get k d'
  end.

(** [d[k] = v] *)
Fixpoint dict_set (k : K) (v : V) (d : dict) : dict :=
  match d with
  | [] => [(k, v)]
  | (k', v') :: d' => if keq k' k then (k', v) :: d' else (k', v') :: dict_set k v d'
  end.

(** [{k: v for k, v in pairs}]: one assignment per pair, in order. *)
Definition dict_of_list (l : list (K * V)) : dict :=
  fold_left (fun d '(k, v) => dict_set k v d) l [].

(** No two stored keys are [==]: the invariant of every Python dict. *)
Fixpoint dict_wf (d : dict) : Prop :=
  match d with
  | [] => True
  | (k, _) :: d' => dict_mem k d' = false /\ dict_wf d'
  end.

(** Every value of the dict satisfies [P]: what a lookup returns and
    what an assignment of such a value leaves. *)
Lemma dict_get_Forall (P : V -> Prop) (k : K) (d : dict) (w : V) :
  Forall (fun kv => P (snd kv)) d -> dict_get k d = Some w -> P w.
Proof.
  induction 1 as [|[k' v] d Hv Hd IH]; simpl; [discriminate|].
  destruct (keq k' k); [now intros [= <-] | exact IH].
Qed.

Lemma dict_set_Forall (P : V -> Prop) (k : K) (v : V) (d : dict) :
  Forall (fun kv => P (snd kv)) d -> P v -> Forall (fun kv => P (snd kv)) (dict_set k v d).
Proof.
  intros Hd Hv. induction Hd as [|[k' w] d Hw Hd IH]; simpl; [constructor; auto|].
  destruct (keq k' k); constructor; auto.
Qed.

Section Laws.
Context (keq_sym : forall a b, keq a b = keq b a)
        (keq_trans : forall a b c, keq a b = true -> keq b c = true -> keq a c = true).

Lemma dict_mem_get (k : K) (d : dict) :
  dict_mem k d = match dict_get k d with Some _ => true | None => false end.
Proof.
  induction d as [|[k' v] d IH]; simpl; [reflexivity|].
  destruct (keq k' k); simpl; auto.
Qed.

Lemma dict_mem_congr (k1 k2 : K) (d : dict) :
  keq k1 k2 = true -> dict_mem k1 d = dict_mem k2 d.
Proof.
  intros H. induction d as [|[k' v] d IH]; simpl; [reflexivity|].
  rewrite IH. destruct (keq k' k1) eqn:E1, (keq k' k2) eqn:E2; simpl; auto.
  - rewrite (keq_trans _ _ _ E1 H) in E2. discriminate.
  - rewrite keq_sym in H. rewrite (keq_trans _ _ _ E2 H) in E1. discriminate.
Qed.

Lemma dict_get_congr (k1 k2 : K) (d : dict) :
  keq k1 k2 = true -> dict_get k1 d = dict_get k2 d.
Proof.
  intros H. induction d as [|[k' v] d IH]; simpl; [reflexivity|].
  rewrite IH. destruct (keq k' k1) eqn:E1, (keq k' k2) eqn:E2; auto.
  - rewrite (keq_trans _ _ _ E1 H) in E2. discriminate.
  - rewrite keq_sym in H. rewrite (keq_trans _ _ _ E2 H) in E1. discriminate.
Qed.

Lemma dict_get_set_eq (k k' : K) (v : V) (d : dict) :
  keq k k' = true -> dict_get k' (dict_set k v d) = Some v.
Proof.
  intros H. induction d as [|[k0 v0] d IH]; simpl.
  - now rewrite H.
  - destruct (keq k0 k) eqn:E; simpl.
    + now rewrite (keq_trans _ _ _ E H).
    + destruct (keq k0 k') eqn:E'; [|exact IH].
      rewrite keq_sym in H. rewrite (keq_trans _ _ _ E' H) in E. discriminate.
Qed.

Lemma dict_get_set_ne (k k' : K) (v : V) (d : dict) :
  keq k k' = false -> dict_get k' (dict_set k v d) = dict_get k' d.
Proof.
  intros H. induction d as [|[k0 v0] d IH]; simpl.
  - now rewrite H.
  - destruct (keq k0 k) eqn:E; simpl.
    + destruct (keq k0 k') eqn:E'; [|reflexivity].
      rewrite keq_sym in E. rewrite (keq_trans _ _ _ E E') in H. discriminate.
    + now rewrite IH.
Qed.

Lemma dict_mem_set (k k' : K) (v : V) (d : dict) :
  dict_mem k' (dict_set k v d) = keq k k' || dict_mem k' d.
Proof.
  rewrite !dict_mem_get. destruct (keq k k') eqn:E; simpl.
  - now rewrite dict_get_set_eq.
  - now rewrite dict_get_set_ne.
Qed.

(** Assignment keeps the invariant. *)
Lemma dict_set_wf (k : K) (v : V) (d : dict) : dict_wf d -> dict_wf (dict_set k v d).
Proof.
  induction d as [|[k0 v0] d IH]; simpl; [auto|].
  intros [Hn Hw]. destruct (keq k0 k) eqn:E; simpl; split; auto.
  rewrite dict_mem_set, Hn, orb_false_r, keq_sym. exact E.
Qed.

Lemma dict_of_list_wf (l : list (K * V)) : dict_wf (dict_of_list l).
Proof.
  unfold dict_of_list. assert (H : dict_wf (@nil (K * V))) by exact I.
  revert H. generalize (@nil (K * V)).
  induction l as [|[k v] l IH]; simpl; auto using dict_set_wf.
Qed.

(** Assigning to a key that is present replaces it in place: the
    keys, in order, are unchanged. *)
Lemma dict_set_keys_present (k : K) (v : V) (d : dict) :
  dict_mem k d = true -> map fst (dict_set k v d) = map fst d.
Proof.
  induction d as [|[k0 v0] d IH]; simpl; [discriminate|].
  destruct (keq k0 k); simpl; [reflexivity|]. intros H. now rewrite IH.
Qed.

(** Assigning to a new key appends it. *)
Lemma dict_set_absent (k : K) (v : V) (d : dict) :
  dict_mem k d = false -> dict_set k v d = d ++ [(k, v)].
Proof.
  induction d as [|[k0 v0] d IH]; simpl; [reflexivity|].
  destruct (keq k0 k); simpl; [discriminate|]. intros H. now rewrite IH.
Qed.

Lemma dict_mem_app (k : K) (l1 l2 : dict) :
  dict_mem k (l1 ++ l2) = dict_mem k l1 || dict_mem k l2.
Proof.
  induction l1 as [|[k0 v0] l1 IH]; simpl; [reflexivity|].
  now rewrite IH, orb_assoc.
Qed.

Lemma dict_wf_app_mem (acc d : dict) (k : K) (v : V) :
  dict_wf (acc ++ (k, v) :: d) -> dict_mem k acc = false.
Proof.
  induction acc as [|[k0 v0] acc IH]; simpl; [reflexivity|].
  intros [Hn Hw]. rewrite (IH Hw), orb_false_r, keq_sym.
  rewrite dict_mem_app in Hn. simpl in Hn.
  destruct (keq k k0); [|reflexivity].
  rewrite orb_true_r in Hn. discriminate.
Qed.

(** In a well-formed dict, rebuilding it pair by pair gives it back. *)
Lemma dict_of_list_wf_id (d : dict) : dict_wf d -> dict_of_list d = d.
Proof.
  unfold dict_of_list. intros Hw.
  enough (H : forall acc, dict_wf (acc ++ d) ->
             fold_left (fun d '(k, v) => dict_set k v d) d acc = acc ++ d)
    by (apply (H []); exact Hw).
  clear Hw. induction d as [|[k v] d IH]; intros acc Hacc; simpl.
  - now rewrite app_nil_r.
  - rewrite dict_set_absent by (eapply dict_wf_app_mem; exact Hacc).
    replace (acc ++ (k, v) :: d) with ((acc ++ [(k, v)]) ++ d)
      by now rewrite <- app_assoc.
    apply IH. rewrite <- app_assoc. exact Hacc.
Qed.
End Laws.
End PyDict.

Arguments dict : clear implicits.
