(* ===== verification/Repr.v ===== *)
(** * The cache-key codec: [str((fname, desc))] and [eval(k)]

    [save_cache] writes each key as [str((fname, desc))]
    ([src/AutoPyFunc.py] line 130) and [load_cache] reads it back with
    [eval(k)] (line 120).  [str] of a tuple is ["(" + repr(a) + ", " +
    repr(b) + ")"]; this file models [repr] of the modelled values
    ([unicode_repr], [long_to_decimal_string] and the [bool]/[None]
    reprs of CPython) and [eval] on Python's literal syntax: string
    literals with either quote and their escapes, decimal integers
    with an optional minus sign, [True], [False], [None], a
    parenthesised value and a two-element tuple.  Text outside that
    grammar is modelled as [eval] raising; that is what Python does on
    text that is not an expression, but an expression such as [1+1] or
    ['a' 'b'] that Python would evaluate is outside the model.

    Characters are Latin-1 code points ([ascii] read as 0..255).  For
    those, [repr] escapes the quote and the backslash, writes [\t],
    [\n], [\r], writes [\xhh] for the other non-printable ones
    (U+0000-U+001F, U+007F-U+00A0, U+00AD) and keeps the rest. *)

From Stdlib Require Import String Ascii List NArith ZArith Lia Bool.
From Stdlib Require Import DecimalString DecimalN DecimalFacts.
From S2P Require Import Prelude PyVal.
Import ListNotations.

Local Open Scope string_scope.

Definition squote : ascii := "'"%char.
Definition dquote : ascii := ascii_of_nat 34.
Definition bslash : ascii := ascii_of_nat 92.

(** Python's [str.isprintable] on Latin-1. *)
Definition latin1_printable (c : ascii) : bool :=
  let n := N_of_ascii c in
  negb ((n <? 32)%N || ((127 <=? n)%N && (n <=? 160)%N) || (n =? 173)%N).

Definition hexdigit (n : N) : ascii :=
  match n with
  | 10%N => "a" | 11%N => "b" | 12%N => "c" | 13%N => "d" | 14%N => "e" | 15%N => "f"
  | _ => ascii_of_N (48 + n)
  end.

(** One character of [repr] inside quotes [q]. *)
Definition repr_char (q c : ascii) : string :=
  if Ascii.eqb c q || Ascii.eqb c bslash then String bslash (chr c)
  else if Ascii.eqb c (ascii_of_nat 9) then String bslash "t"
  else if Ascii.eqb c (ascii_of_nat 10) then String bslash "n"
  else if Ascii.eqb c (ascii_of_nat 13) then String bslash "r"
  else if latin1_printable c then chr c
  else String bslash (String "x" (String (hexdigit (N_of_ascii c / 16))
                                   (chr (hexdigit (N_of_ascii c mod 16))))).

Fixpoint repr_body (q : ascii) (s : string) : string :=
  match s with
  | EmptyString => EmptyString
  | String c s' => repr_char q c ++ repr_body q s'
  end.

(** The quote: single, unless the text has a single quote and no double. *)
Definition repr_quote (s : string) : ascii :=
  if str_has squote s && negb (str_has dquote s) then dquote else squote.

Definition repr_str (s : string) : string :=
  let q := repr_quote s in String q (repr_body q s ++ chr q).

Definition digits_N (n : N) : string := NilEmpty.string_of_uint (N.to_uint n).

Definition repr_int (z : Z) : string :=
  if (z <? 0)%Z then "-" ++ digits_N (Z.to_N (- z)) else digits_N (Z.to_N z).

Definition py_repr (v : pyval) : string :=
  match v with
  | PStr s => repr_str s
  | PInt z => repr_int z
  | PBool true => "True"
  | PBool false => "False"
  | PNone => "None"
  end.

(** [str((fname, desc))] (line 130). *)
Definition str_pair (a b : pyval) : string :=
  "(" ++ py_repr a ++ ", " ++ py_repr b ++ ")".

(** ** [eval] on literal syntax *)

Definition hexval (c : ascii) : option N :=
  let n := N_of_ascii c in
  if (48 <=? n)%N && (n <=? 57)%N then Some (n - 48)%N
  else if (97 <=? n)%N && (n <=? 102)%N then Some (n - 87)%N
  else if (65 <=? n)%N && (n <=? 70)%N then Some (n - 55)%N
  else None.

Definition octval (c : ascii) : option N :=
  let n := N_of_ascii c in
  if (48 <=? n)%N && (n <=? 55)%N then Some (n - 48)%N else None.

(** The character an escape [\e] with a one-letter [e] stands for. *)
Definition simple_escape (e : ascii) : option ascii :=
  let n := N_of_ascii e in
  if (n =? 92)%N || (n =? 39)%N || (n =? 34)%N then Some e
  else if (n =? 97)%N then Some (ascii_of_nat 7)      (* \a *)
  else if (n =? 98)%N then Some (ascii_of_nat 8)      (* \b *)
  else if (n =? 102)%N then Some (ascii_of_nat 12)    (* \f *)
  else if (n =? 110)%N then Some (ascii_of_nat 10)    (* \n *)
  else if (n =? 114)%N then Some (ascii_of_nat 13)    (* \r *)
  else if (n =? 116)%N then Some (ascii_of_nat 9)     (* \t *)
  else if (n =? 118)%N then Some (ascii_of_nat 11)    (* \v *)
  else None.

(** A raw character Python refuses inside a one-line literal:
    newline, carriage return, NUL. *)
Definition raw_forbidden (c : ascii) : bool :=
  let n := N_of_ascii c in (n =? 10)%N || (n =? 13)%N || (n =? 0)%N.

Definition prepend (c : ascii) (r : option (string * string)) : option (string * string) :=
  match r with Some (s, rest) => Some (String c s, rest) | None => None end.

(** The body of a string literal opened by [q], up to and including the
    closing [q]; returns the value and the text after it.  Escapes:
    the simple ones, [\xhh], octal [\o], [\oo], [\ooo] (at most 255),
    a backslash-newline continuation; an unknown escape [\e] keeps the
    backslash, as Python does; [\N], [\u], [\U] (code points beyond
    Latin-1) are outside the model. *)
Fixpoint parse_body (q : ascii) (s : string) {struct s} : option (string * string) :=
  match s with
  | EmptyString => None
  | String c s' =>
      if Ascii.eqb c q then Some (EmptyString, s')
      else if raw_forbidden c then None
      else if negb (Ascii.eqb c bslash) then prepend c (parse_body q s')
      else
        match s' with
        | EmptyString => None
        | String e s'' =>
            match simple_escape e with
            | Some c' => prepend c' (parse_body q s'')
            | None =>
              if Ascii.eqb e (ascii_of_nat 10) then parse_body q s''
              else if Ascii.eqb e "x"%char then
                match s'' with
                | String h1 (String h2 r) =>
                    match hexval h1, hexval h2 with
                    | Some a, Some b => prepend (ascii_of_N (16 * a + b)) (parse_body q r)
                    | _, _ => None
                    end
                | _ => None
                end
              else match octval e with
              | Some o1 =>
                  match s'' with
                  | String x2 r2 =>
                      match octval x2 with
                      | Some o2 =>
                          match r2 with
                          | String x3 r3 =>
                              match octval x3 with
                              | Some o3 =>
                                  if (64 * o1 + 8 * o2 + o3 <=? 255)%N
                                  then prepend (ascii_of_N (64 * o1 + 8 * o2 + o3)) (parse_body q r3)
                                  else None
                              | None => prepend (ascii_of_N (8 * o1 + o2)) (parse_body q r2)
                              end
                          | EmptyString => None
                          end
                      | None => prepend (ascii_of_N o1) (parse_body q s'')
                      end
                  | EmptyString => None
                  end
              | None =>
                  if Ascii.eqb e "N"%char || Ascii.eqb e "u"%char || Ascii.eqb e "U"%char then None
                  else prepend bslash (parse_body q s')
              end
            end
        end
  end.

Definition is_digit (c : ascii) : bool :=
  let n := N_of_ascii c in (48 <=? n)%N && (n <=? 57)%N.

Fixpoint span_digits (s : string) : string * string :=
  match s with
  | String c s' =>
      if is_digit c then let (ds, r) := span_digits s' in (String c ds, r) else (EmptyString, s)
  | EmptyString => (EmptyString, EmptyString)
  end.

(** A decimal literal: non-empty, and no leading zero unless it is "0"
    (Python refuses [01]). *)
Definition bad_digits (ds : string) : bool :=
  match ds with
  | EmptyString => true
  | String c (String _ _) => Ascii.eqb c "0"%char
  | String _ EmptyString => false
  end.

Definition parse_nat (s : string) : option (N * string) :=
  let (ds, r) := span_digits s in
  if bad_digits ds then None
  else option_map (fun u => (N.of_uint u, r)) (NilEmpty.uint_of_string ds).

Definition is_space (c : ascii) : bool :=
  Ascii.eqb c " "%char || Ascii.eqb c (ascii_of_nat 9).

Fixpoint skip_ws (s : string) : string :=
  match s with
  | String c s' => if is_space c then skip_ws s' else s
  | EmptyString => EmptyString
  end.

(** One literal value. *)
Definition parse_value (s : string) : option (pyval * string) :=
  match s with
  | String c s' =>
      if Ascii.eqb c squote || Ascii.eqb c dquote then
        option_map (fun '(v, r) => (PStr v, r)) (parse_body c s')
      else if Ascii.eqb c "-"%char then
        option_map (fun '(n, r) => (PInt (- Z.of_N n)%Z, r)) (parse_nat (skip_ws s'))
      else if is_digit c then
        option_map (fun '(n, r) => (PInt (Z.of_N n), r)) (parse_nat s)
      else match strip_prefix "True" s with
      | Some r => Some (PBool true, r)
      | None => match strip_prefix "False" s with
        | Some r => Some (PBool false, r)
        | None => match strip_prefix "None" s with
          | Some r => Some (PNone, r)
          | None => None
          end
        end
      end
  | EmptyString => None
  end.

Definition expect (c : ascii) (s : string) : option string :=
  match skip_ws s with
  | String d r => if Ascii.eqb c d then Some r else None
  | EmptyString => None
  end.

(** [eval(k)] for a cache key: a parenthesised value, a pair with an
    optional trailing comma, or a bare value, with blanks around. *)
Definition eval_key (s : string) : option pykey :=
  let fin (k : pykey) (r : string) := if String.eqb (skip_ws r) "" then Some k else None in
  match skip_ws s with
  | String "(" r0 =>
      match parse_value (skip_ws r0) with
      | Some (a, r1) =>
          match skip_ws r1 with
          | String ")" r2 => fin (KAtom a) r2
          | String "," r2 =>
              match parse_value (skip_ws r2) with
              | Some (b, r3) =>
                  match expect ")" r3 with
                  | Some r4 => fin (KPair a b) r4
                  | None =>
                      match expect "," r3 with
                      | Some r5 => match expect ")" r5 with
                                   | Some r6 => fin (KPair a b) r6
                                   | None => None
                                   end
                      | None => None
                      end
                  end
              | None => None
              end
          | _ => None
          end
      | None => None
      end
  | s1 =>
      match parse_value s1 with
      | Some (a, r) => fin (KAtom a) r
      | None => None
      end
  end.

(** ** [eval] inverts [str] on cache keys *)

Definition is_quote (q : ascii) : bool := Ascii.eqb q squote || Ascii.eqb q dquote.

Lemma repr_quote_is_quote (s : string) : is_quote (repr_quote s) = true.
Proof. unfold repr_quote. destruct (_ && _); reflexivity. Qed.

Lemma hexval_hexdigit (d : N) : (d < 16)%N -> hexval (hexdigit d) = Some d.
Proof.
  intros H.
  assert (E : (d = 0 \/ d = 1 \/ d = 2 \/ d = 3 \/ d = 4 \/ d = 5 \/ d = 6 \/ d = 7 \/
              d = 8 \/ d = 9 \/ d = 10 \/ d = 11 \/ d = 12 \/ d = 13 \/ d = 14 \/ d = 15)%N)
    by lia.
  repeat destruct E as [->|E]; subst; reflexivity.
Qed.

Lemma printable_not_forbidden (c : ascii) :
  latin1_printable c = true -> raw_forbidden c = false.
Proof.
  unfold latin1_printable, raw_forbidden.
  destruct (N.ltb_spec (N_of_ascii c) 32); [discriminate|]. intros _.
  repeat match goal with |- context [N.eqb ?a ?b] => destruct (N.eqb_spec a b) end;
    simpl; try lia; reflexivity.
Qed.

Lemma mul16 (a : N) :
  (match a with 0 => 0 | N.pos q => N.pos q~0~0~0~0 end)%N = (16 * a)%N.
Proof. destruct a; reflexivity. Qed.

(** The text [repr] writes for one character is read back as that
    character, whichever of the two quotes delimits the literal. *)
Lemma parse_body_repr_char (q c : ascii) (t : string) :
  is_quote q = true ->
  parse_body q (repr_char q c ++ t) = prepend c (parse_body q t).
Proof.
  intros Hq. unfold is_quote in Hq.
  assert (Q : q = squote \/ q = dquote)
    by (destruct (Ascii.eqb_spec q squote), (Ascii.eqb_spec q dquote); auto; discriminate).
  clear Hq. unfold repr_char.
  destruct (Ascii.eqb_spec c q) as [->|Hcq]; [destruct Q as [->| ->]; reflexivity|].
  destruct (Ascii.eqb_spec c bslash) as [->|Hcb]; [destruct Q as [->| ->]; reflexivity|].
  destruct (Ascii.eqb_spec c (ascii_of_nat 9)) as [->|_]; [destruct Q as [->| ->]; reflexivity|].
  destruct (Ascii.eqb_spec c (ascii_of_nat 10)) as [->|_]; [destruct Q as [->| ->]; reflexivity|].
  destruct (Ascii.eqb_spec c (ascii_of_nat 13)) as [->|_]; [destruct Q as [->| ->]; reflexivity|].
  simpl. destruct (latin1_printable c) eqn:Hp.
  - simpl. apply Ascii.eqb_neq in Hcq. apply Ascii.eqb_neq in Hcb.
    rewrite Hcq, (printable_not_forbidden c Hp), Hcb. reflexivity.
  - assert (Hc : (16 * (N_of_ascii c / 16) + N_of_ascii c mod 16 = N_of_ascii c)%N)
      by (symmetry; apply N.div_mod; lia).
    assert (H16 : (N_of_ascii c / 16 < 16)%N /\ (N_of_ascii c mod 16 < 16)%N)
      by (pose proof (N_ascii_bounded c); split;
          [apply N.Div0.div_lt_upper_bound | apply N.mod_lt]; lia).
    destruct Q as [-> | ->]; simpl; rewrite !hexval_hexdigit by apply H16;
      rewrite mul16, Hc, ascii_N_embedding; reflexivity.
Qed.

Lemma parse_body_repr_body (q : ascii) (s rest : string) :
  is_quote q = true ->
  parse_body q (repr_body q s ++ String q rest) = Some (s, rest).
Proof.
  intros Hq. induction s as [|c s IH]; simpl.
  - now rewrite Ascii.eqb_refl.
  - rewrite string_app_assoc, parse_body_repr_char, IH by exact Hq. reflexivity.
Qed.

(** *** Integers *)

Definition nondigit_head (r : string) : bool :=
  match r with String c _ => negb (is_digit c) | EmptyString => true end.

Lemma span_digits_uint (u : Decimal.uint) (r : string) :
  nondigit_head r = true ->
  span_digits (NilEmpty.string_of_uint u ++ r) = (NilEmpty.string_of_uint u, r).
Proof.
  intros Hr. induction u; simpl; try rewrite IHu; try reflexivity.
  destruct r as [|c r]; simpl in *; [reflexivity|].
  apply negb_true_iff in Hr. now rewrite Hr.
Qed.

(** [N.to_uint] is normalised: never empty, no leading zero. *)
Lemma to_uint_unorm (n : N) : N.to_uint n = Decimal.unorm (N.to_uint n).
Proof.
  pose proof (DecimalN.Unsigned.to_of (N.to_uint n)) as H.
  rewrite DecimalN.Unsigned.of_to in H. exact H.
Qed.

Lemma bad_digits_unorm (d : Decimal.uint) :
  bad_digits (NilEmpty.string_of_uint (Decimal.unorm d)) = false.
Proof.
  unfold Decimal.unorm. destruct (Decimal.nzhead d) eqn:E; try reflexivity;
    try (simpl; destruct (NilEmpty.string_of_uint u); reflexivity).
  exfalso. exact (nzhead_nonzero d u E).
Qed.

Lemma digits_head (n : N) :
  exists c t, digits_N n = String c t /\ is_digit c = true.
Proof.
  unfold digits_N. rewrite to_uint_unorm. unfold Decimal.unorm.
  destruct (Decimal.nzhead (N.to_uint n)); simpl; eauto.
Qed.

Lemma parse_nat_digits (n : N) (r : string) :
  nondigit_head r = true -> parse_nat (digits_N n ++ r) = Some (n, r).
Proof.
  intros Hr. unfold parse_nat. unfold digits_N at 1. rewrite span_digits_uint by exact Hr.
  assert (Hb : bad_digits (digits_N n) = false)
    by (unfold digits_N; rewrite to_uint_unorm; apply bad_digits_unorm).
  unfold digits_N in Hb. rewrite Hb.
  rewrite NilEmpty.usu. simpl. now rewrite DecimalN.Unsigned.of_to.
Qed.

Lemma digit_not_special (c : ascii) :
  is_digit c = true ->
  Ascii.eqb c squote = false /\ Ascii.eqb c dquote = false /\
  Ascii.eqb c "-"%char = false /\ is_space c = false.
Proof. destruct c as [[] [] [] [] [] [] [] []]; vm_compute; intuition congruence. Qed.

(** *** Values *)

Lemma quote_not_space (q : ascii) : is_quote q = true -> is_space q = false.
Proof.
  unfold is_quote. intros H.
  apply orb_true_iff in H as [H|H]; apply Ascii.eqb_eq in H; rewrite H; reflexivity.
Qed.

(** [repr] never starts with a blank. *)
Lemma skip_ws_repr (v : pyval) (r : string) : skip_ws (py_repr v ++ r) = py_repr v ++ r.
Proof.
  destruct v as [s|z|[]|]; simpl; try reflexivity.
  - unfold repr_str. simpl. now rewrite quote_not_space by apply repr_quote_is_quote.
  - unfold repr_int. destruct (z <? 0)%Z; [reflexivity|].
    destruct (digits_head (Z.to_N z)) as (c & t & -> & Hd). simpl.
    destruct (digit_not_special c Hd) as (_ & _ & _ & ->). reflexivity.
Qed.

Lemma parse_value_repr (v : pyval) (r : string) :
  nondigit_head r = true -> parse_value (py_repr v ++ r) = Some (v, r).
Proof.
  intros Hr. destruct v as [s|z|[]|]; simpl; try reflexivity.
  - unfold repr_str. pose proof (repr_quote_is_quote s) as Hq.
    simpl. unfold is_quote in Hq. rewrite Hq. simpl.
    rewrite string_app_assoc. simpl. now rewrite parse_body_repr_body.
  - unfold repr_int. destruct (Z.ltb_spec z 0).
    + simpl. destruct (digits_head (Z.to_N (- z))) as (c & t & Ed & Hd).
      rewrite Ed. simpl. destruct (digit_not_special c Hd) as (_ & _ & _ & ->).
      change (String c (t ++ r)) with (String c t ++ r).
      rewrite <- Ed, parse_nat_digits by exact Hr. simpl. rewrite Z2N.id by lia. now rewrite Z.opp_involutive.
    + destruct (digits_head (Z.to_N z)) as (c & t & Ed & Hd).
      rewrite Ed. simpl. destruct (digit_not_special c Hd) as (-> & -> & -> & _).
      simpl. rewrite Hd.
      change (String c (t ++ r)) with (String c t ++ r).
      rewrite <- Ed, parse_nat_digits by exact Hr. simpl. rewrite Z2N.id by lia. do 2 f_equal; lia.
Qed.

(** *** Keys *)

(** [eval(str((a, b))) == (a, b)]: the codec of [save_cache] and
    [load_cache] is lossless on every key the transformer builds. *)
Theorem eval_key_str_pair (a b : pyval) : eval_key (str_pair a b) = Some (KPair a b).
Proof.
  unfold eval_key, str_pair.
  change (skip_ws ("(" ++ ?x)) with (String "(" x).
  cbv beta iota.
  rewrite skip_ws_repr, parse_value_repr by reflexivity.
  change (skip_ws (", " ++ ?x)) with (String "," (" " ++ x)).
  cbv beta iota.
  change (skip_ws (" " ++ ?x)) with (skip_ws x).
  rewrite skip_ws_repr, parse_value_repr by reflexivity.
  reflexivity.
Qed.

(** Hence distinct pairs are written as distinct JSON keys. *)
Corollary str_pair_inj (a b c d : pyval) :
  str_pair a b = str_pair c d -> a = c /\ b = d.
Proof.
  intros H. pose proof (eval_key_str_pair a b) as E1.
  rewrite H, eval_key_str_pair in E1. injection E1 as -> ->. auto.
Qed.

(** C5. The key codec of the cache file: [eval(str((a, b))) == (a, b)] for
    every pair of modelled values, and [str] of pairs is injective, so
    no two cache entries share a JSON key. *)
Theorem str_pair_eval_roundtrip (a b : pyval) :
  eval_key (str_pair a b) = Some (KPair a b) /\
  (forall c d, str_pair a b = str_pair c d -> a = c /\ b = d).
Proof. split; [apply eval_key_str_pair | intros c d; apply str_pair_inj]. Qed.
