(* ===== verification/Cache.v ===== *)
(** * Cache Store: [load_cache] and [save_cache]

    [SidFunctionTransformer.load_cache] ([src/AutoPyFunc.py] lines
    115-125) and [save_cache] (lines 127-133).  The cache is a dict
    from [pykey] to generated text ([PyDict.v] with [key_eqb]).  The
    file [function_cache.json] is modelled at the level [json.load] and
    [json.dump] see it: absent, a JSON object whose members are
    string/string pairs (in file order), or anything else ([JOther]:
    text that is not JSON, an empty file, JSON that is not an object).
    Values that are not strings are outside the model.  The text layer
    of JSON is not modelled here.

    [save_cache] opens the file for writing before it builds the
    dictionary it dumps: when building fails (a key that does not
    unpack into two values), the file has already been truncated.  *)

From Stdlib Require Import String List Bool ZArith Lia.
From S2P Require Import Prelude PyVal PyDict Repr.
Import ListNotations.

(** Logged events, with the level the source logs them at. *)
Inductive log_event : Type :=
| LCacheLoadFailed                                        (* error, line 122 *)
| LCacheSaveFailed                                        (* error, line 133 *)
| LGenerating (line col : nat) (desc : pyval)             (* info, line 58 *)
| LGeneratingNamed (line col : nat) (name desc : pyval)   (* info, line 63 *)
| LWrongArgs (line col : nat)                             (* error, line 65 *)
| LGeneratedCode (code : string)                          (* info, line 75 *)
| LGenFailed                                              (* error, line 112 *)
| LReadFailed                                             (* error, line 140 *)
| LWriteFailed.                                           (* error, line 153 *)

Definition cache : Type := dict pykey string.

Inductive jfile : Type :=
| JObject (members : list (string * string))
| JOther.

(** The file system as the cache store sees it: the file, and whether
    [open(CACHE_FILE, 'w')] succeeds. *)
Record fsys : Type := mk_fsys { cache_file : option jfile; cache_writable : bool }.

(** [for (fname, desc), code in ...]: unpacking a key.  A [str] of
    length two unpacks into its two characters; any other [str] raises
    [ValueError]; an [int], [bool] or [None] raises [TypeError]. *)
Definition unpack2 (k : pykey) : res (pyval * pyval) :=
  match k with
  | KPair a b => Ok (a, b)
  | KAtom (PStr (String c1 (String c2 EmptyString))) => Ok (PStr (chr c1), PStr (chr c2))
  | KAtom (PStr _) => Exc ValueError
  | KAtom _ => Exc TypeError
  end.

Fixpoint encode_entries (c : cache) : res (list (string * string)) :=
  match c with
  | [] => Ok []
  | (k, v) :: c' =>
      match unpack2 k with
      | Ok (a, b) =>
          match encode_entries c' with
          | Ok l => Ok ((str_pair a b, v) :: l)
          | Exc e => Exc e
          end
      | Exc e => Exc e
      end
  end.

(** [save_cache] (lines 127-133). *)
Definition save_cache (c : cache) (fs : fsys) : fsys * list log_event :=
  if cache_writable fs then
    match encode_entries c with
    | Ok l => (mk_fsys (Some (JObject (dict_of_list String.eqb l))) true, [])
    | Exc _ => (mk_fsys (Some JOther) true, [LCacheSaveFailed])
    end
  else (fs, [LCacheSaveFailed]).

Fixpoint eval_entries (l : list (string * string)) : option cache :=
  match l with
  | [] => Some []
  | (k, v) :: l' =>
      match eval_key k, eval_entries l' with
      | Some k', Some c => Some ((k', v) :: c)
      | _, _ => None
      end
  end.

(** [load_cache] (lines 115-125): [json.load] builds a dict from the
    members (a repeated name keeps its first place and its last value),
    then [{eval(k): v for k, v in read_cache.items()}]. *)
Definition load_cache (fs : fsys) : cache * list log_event :=
  match cache_file fs with
  | None => ([], [])
  | Some JOther => ([], [LCacheLoadFailed])
  | Some (JObject members) =>
      match eval_entries (dict_of_list String.eqb members) with
      | Some entries => (dict_of_list key_eqb entries, [])
      | None => ([], [LCacheLoadFailed])
      end
  end.

(** Every key is a pair: what the transformer stores. *)
Definition pair_keys (c : cache) : Prop :=
  Forall (fun kv => exists a b, fst kv = KPair a b) c.

(** ** Round trip through the file *)

Definition enc_key (k : pykey) : string :=
  match k with KPair a b => str_pair a b | KAtom _ => EmptyString end.

Definition enc_cache (c : cache) : list (string * string) :=
  map (fun '(k, v) => (enc_key k, v)) c.

Lemma encode_entries_pairs (c : cache) :
  pair_keys c -> encode_entries c = Ok (enc_cache c).
Proof.
  induction 1 as [|[k v] c [a [b Hk]] _ IH]; [reflexivity|].
  simpl in Hk. subst k. simpl. now rewrite IH.
Qed.

Lemma enc_key_inj (k1 k2 : pykey) (a b c d : pyval) :
  k1 = KPair a b -> k2 = KPair c d -> enc_key k1 = enc_key k2 -> k1 = k2.
Proof.
  intros -> -> H. simpl in H. apply str_pair_inj in H as [-> ->]. reflexivity.
Qed.

Lemma key_eqb_false_neq (k1 k2 : pykey) : key_eqb k1 k2 = false -> k1 <> k2.
Proof. intros H ->. now rewrite key_eqb_refl in H. Qed.

(** The encoded keys of a well-formed dict of pairs are pairwise distinct. *)
Lemma encode_wf (c : cache) :
  pair_keys c -> dict_wf key_eqb c ->
  dict_wf String.eqb (enc_cache c).
Proof.
  induction 1 as [|[k v] c Hk Hc IH]; simpl; [auto|].
  intros [Hn Hw]. split; [|auto].
  destruct Hk as [a [b Hk]]. simpl in Hk.
  clear IH Hw. induction Hc as [|[k' v'] c [a' [b' Hk']] _ IHc]; simpl in *; [reflexivity|].
  apply orb_false_iff in Hn as [H1 H2].
  rewrite IHc by exact H2.
  destruct (String.eqb_spec (enc_key k') (enc_key k)) as [E|]; [|reflexivity].
  exfalso. apply (key_eqb_false_neq _ _ H1). exact (enc_key_inj _ _ _ _ _ _ Hk' Hk E).
Qed.

Lemma eval_entries_encode (c : cache) :
  pair_keys c -> eval_entries (enc_cache c) = Some c.
Proof.
  induction 1 as [|[k v] c [a [b Hk]] _ IH]; [reflexivity|].
  simpl in Hk. subst k. simpl. now rewrite eval_key_str_pair, IH.
Qed.

Lemma dict_of_list_string_id (l : list (string * string)) :
  dict_wf String.eqb l -> dict_of_list String.eqb l = l.
Proof.
  apply (dict_of_list_wf_id String.eqb String.eqb_sym).
Qed.

Lemma dict_of_list_cache_id (c : cache) : dict_wf key_eqb c -> dict_of_list key_eqb c = c.
Proof. exact (dict_of_list_wf_id key_eqb key_eqb_sym c). Qed.

Lemma load_save_id (c : cache) (fs : fsys) :
  pair_keys c -> dict_wf key_eqb c -> cache_writable fs = true ->
  load_cache (fst (save_cache c fs)) = (c, []).
Proof.
  intros Hp Hw Hfs. unfold save_cache. rewrite Hfs, encode_entries_pairs by exact Hp.
  unfold load_cache. simpl.
  rewrite !(dict_of_list_string_id (enc_cache c)) by (apply encode_wf; assumption).
  now rewrite eval_entries_encode, dict_of_list_cache_id.
Qed.

(** ** Failures of the cache store *)

(** C20. [load_cache] never fails the run: an absent file gives the empty
    cache silently, an unreadable or malformed one the empty cache and
    one error line; whatever it returns is a dict (no two keys [==]). *)
Theorem load_cache_total (fs : fsys) :
  dict_wf key_eqb (fst (load_cache fs)) /\
  (snd (load_cache fs) = [] \/ load_cache fs = ([], [LCacheLoadFailed])) /\
  (cache_file fs = None -> load_cache fs = ([], [])).
Proof.
  unfold load_cache. destruct (cache_file fs) as [[members|]|]; simpl.
  - destruct (eval_entries _); simpl.
    + split; [apply (dict_of_list_wf key_eqb key_eqb_sym key_eqb_trans) | split; [now left | discriminate]].
    + split; [exact I | split; [now right | discriminate]].
  - split; [exact I | split; [now right | discriminate]].
  - split; [exact I | auto].
Qed.

(** C19. A key that does not unpack into two values makes [save_cache] fail
    after it has opened the file for writing: the file is left empty,
    and the next [load_cache] finds no cache at all. *)
Theorem save_cache_unpack_error_wipes (c : cache) (fs : fsys) (e : pyexc) :
  cache_writable fs = true -> encode_entries c = Exc e ->
  snd (save_cache c fs) = [LCacheSaveFailed] /\
  load_cache (fst (save_cache c fs)) = ([], [LCacheLoadFailed]).
Proof. intros Hw He. unfold save_cache. now rewrite Hw, He. Qed.

(** C4. Saving a cache whose keys are pairs, no two of them [==], into a
    writable file logs nothing, and loading the file back gives the same
    cache, in the same order, with nothing logged. *)
Theorem load_save_roundtrip (c : cache) (fs : fsys) :
  pair_keys c -> dict_wf key_eqb c -> cache_writable fs = true ->
  snd (save_cache c fs) = [] /\ load_cache (fst (save_cache c fs)) = (c, []).
Proof.
  intros Hp Hw Hfs. split; [|now apply load_save_id].
  unfold save_cache. now rewrite Hfs, encode_entries_pairs.
Qed.


(** ** Witnesses *)

Module Witnesses.
Local Open Scope string_scope.
Local Open Scope list_scope.

Definition c_pair : cache := [(KPair (PStr "f") (PStr "d"), "def f(): pass")].
Definition c_int : cache := [(KAtom (PInt 1%Z), "x")].
Definition fs_w : fsys := mk_fsys None true.

Lemma load_save_roundtrip_witness :
  pair_keys c_pair /\ dict_wf key_eqb c_pair /\ cache_writable fs_w = true /\
  snd (save_cache c_pair fs_w) = [] /\ load_cache (fst (save_cache c_pair fs_w)) = (c_pair, []).
Proof.
  assert (Hp : pair_keys c_pair) by (repeat constructor; eexists; eexists; reflexivity).
  assert (Hw : dict_wf key_eqb c_pair) by (vm_compute; tauto).
  split; [exact Hp | split; [exact Hw | split; [reflexivity |]]].
  exact (load_save_roundtrip c_pair fs_w Hp Hw eq_refl).
Defined.

Lemma save_cache_unpack_error_wipes_witness :
  cache_writable fs_w = true /\ encode_entries c_int = Exc TypeError /\
  snd (save_cache c_int fs_w) = [LCacheSaveFailed] /\
  load_cache (fst (save_cache c_int fs_w)) = ([], [LCacheLoadFailed]).
Proof.
  split; [reflexivity | split; [reflexivity |]].
  exact (save_cache_unpack_error_wipes c_int fs_w TypeError eq_refl eq_refl).
Defined.
End Witnesses.
