(* ===== verification/PyAst.v ===== *)
(** * Python's [ast] trees as the transformer walks them

    [SidFunctionTransformer] ([src/AutoPyFunc.py] line 44) is an
    [ast.NodeTransformer].  [visit] calls [visit_Call] on an [ast.Call]
    and [generic_visit] on every other node; [generic_visit] walks the
    node's fields in the order of the class's [_fields] tuple.  A field
    that holds an AST node is visited; a field that holds a list has
    each of its AST items visited, in order, and its other items kept; a
    field holding anything else (an identifier, a constant, [None]) is
    left alone.  That rule is the same for every node class, and the
    model follows it: a [node] is either one of the three classes
    [visit_Call] looks inside ([Name], [Constant], [Call]), or a node
    [Node cls fields] of any other class, whose fields are given in
    [_fields] order.  Every class of [ast] (statements, expressions,
    [arguments], [keyword], [comprehension], [withitem], operators,
    ...) is such a node; the definitions at the end of the file build
    some of them with their [_fields] (CPython 3.8-3.11).

    [Name.id] is a [pyval] and not a [string]: the transformer builds
    [ast.Name(id=function_name)] where [function_name] is whatever the
    marker's first [Constant] held (line 77), which need not be a
    string.  The [ctx] field of [Name] and the [kind] of [Constant]
    hold nodes without fields and are left out; so are the [ctx] fields
    of the other classes built below.  Constants are the [pyval]s:
    [str], [int], [bool], [None]. *)

From Stdlib Require Import String List ZArith.
From S2P Require Import Prelude PyVal.
Import ListNotations.

Record position : Type := mk_pos { lineno : nat; col_offset : nat }.

(** An element of a list field, or the content of a single field: an
    AST node, which [generic_visit] visits, or a plain value. *)
Inductive item (N : Type) : Type :=
| INode (n : N)
| IScalar (v : pyval).

(** A field: a single value, or a list. *)
Inductive field (N : Type) : Type :=
| FOne (x : item N)
| FList (xs : list (item N)).

Arguments INode {N} n.
Arguments IScalar {N} v.
Arguments FOne {N} x.
Arguments FList {N} xs.

(** [ast.AST] *)
Inductive node : Type :=
| Name (id : pyval)
| Constant (value : pyval)
| Call (pos : position) (func : node) (args : list node) (keywords : list node)
| Node (cls : string) (fields : list (field node)).

(** [ast.Module]: its [body]; [type_ignores] holds no expression. *)
Record pymodule : Type := PyModule { mod_body : list node }.

(** [isinstance(node.func, ast.Name) and node.func.id == 'sid'] (line 53). *)
Definition is_sid (f : node) : bool :=
  match f with
  | Name id => py_eqb id (PStr "sid")
  | _ => false
  end.

(** [arg.s]: the deprecated alias of [Constant.value]; any other node
    has no attribute [s] (lines 56, 61, 62). *)
Definition attr_s (e : node) : res pyval :=
  match e with
  | Constant v => Ok v
  | _ => Exc AttributeError
  end.

(** ** Induction through the fields *)

Definition item_all {N} (P : N -> Prop) (i : item N) : Prop :=
  match i with INode n => P n | IScalar _ => True end.

Definition field_all {N} (P : N -> Prop) (f : field N) : Prop :=
  match f with FOne i => item_all P i | FList xs => Forall (item_all P) xs end.

Section NodeInd.
Variable P : node -> Prop.

Hypothesis HName : forall id, P (Name id).
Hypothesis HConstant : forall v, P (Constant v).
Hypothesis HCall : forall pos f args kws,
  P f -> Forall P args -> Forall P kws -> P (Call pos f args kws).
Hypothesis HNode : forall cls fs, Forall (field_all P) fs -> P (Node cls fs).

Fixpoint node_ind' (e : node) : P e :=
  let fix all (l : list node) : Forall P l :=
    match l with
    | [] => Forall_nil _
    | x :: xs => Forall_cons _ (node_ind' x) (all xs)
    end in
  let it (i : item node) : item_all P i :=
    match i with INode n => node_ind' n | IScalar _ => I end in
  let fix items (l : list (item node)) : Forall (item_all P) l :=
    match l with
    | [] => Forall_nil _
    | x :: xs => Forall_cons _ (it x) (items xs)
    end in
  let fld (f : field node) : field_all P f :=
    match f with FOne i => it i | FList xs => items xs end in
  let fix fields (l : list (field node)) : Forall (field_all P) l :=
    match l with
    | [] => Forall_nil _
    | x :: xs => Forall_cons _ (fld x) (fields xs)
    end in
  match e with
  | Name id => HName id
  | Constant v => HConstant v
  | Call pos f args kws => HCall pos f args kws (node_ind' f) (all args) (all kws)
  | Node cls fs => HNode cls fs (fields fs)
  end.
End NodeInd.

(** ** Some node classes, with their [_fields] *)

Definition one (n : node) : field node := FOne (INode n).
Definition many (l : list node) : field node := FList (map INode l).
Definition opt (o : option node) : field node :=
  FOne (match o with Some n => INode n | None => IScalar PNone end).
Definition scalar (v : pyval) : field node := FOne (IScalar v).
Definition ident (s : string) : field node := scalar (PStr s).

(** An operator node ([ast.Add()], [ast.Eq()], [ast.And()]): no fields. *)
Definition op (cls : string) : node := Node cls [].

(** [keyword(arg, value)]; [arg] is [None] for [**kwargs]. *)
Definition keyword (arg : option string) (value : node) : node :=
  Node "keyword" [scalar (match arg with Some s => PStr s | None => PNone end); one value].

(** [arg(arg, annotation, type_comment)] *)
Definition arg (name : string) (annotation : option node) : node :=
  Node "arg" [ident name; opt annotation; scalar PNone].

(** [arguments(posonlyargs, args, vararg, kwonlyargs, kw_defaults, kwarg,
    defaults)], for positional parameters and their defaults. *)
Definition arguments (params : list node) (defaults : list node) : node :=
  Node "arguments" [many []; many params; opt None; many []; many []; opt None; many defaults].

Definition Attribute (value : node) (attr : string) : node :=
  Node "Attribute" [one value; ident attr].
Definition BinOp (left : node) (o : string) (right : node) : node :=
  Node "BinOp" [one left; one (op o); one right].
Definition IfExp (test body orelse : node) : node :=
  Node "IfExp" [one test; one body; one orelse].
(** [Dict(keys, values)]: a [None] key stands for [**d]. *)
Definition Dict (keys : list (option node)) (values : list node) : node :=
  Node "Dict" [FList (map (fun o => match o with Some n => INode n | None => IScalar PNone end) keys);
               many values].
Definition List (elts : list node) : node := Node "List" [many elts].
Definition Lambda (args body : node) : node := Node "Lambda" [one args; one body].
(** [comprehension(target, iter, ifs, is_async)] *)
Definition comprehension (target iter : node) (ifs : list node) : node :=
  Node "comprehension" [one target; one iter; many ifs; scalar (PInt 0%Z)].
Definition ListComp (elt : node) (generators : list node) : node :=
  Node "ListComp" [one elt; many generators].

Definition FunctionDef (name : string) (args : node) (body decorator_list : list node)
    (returns : option node) : node :=
  Node "FunctionDef" [ident name; one args; many body; many decorator_list; opt returns; scalar PNone].
Definition ClassDef (name : string) (bases keywords body decorator_list : list node) : node :=
  Node "ClassDef" [ident name; many bases; many keywords; many body; many decorator_list].
Definition Return (value : option node) : node := Node "Return" [opt value].
Definition Assign (targets : list node) (value : node) : node :=
  Node "Assign" [many targets; one value; scalar PNone].
Definition Expr (value : node) : node := Node "Expr" [one value].
Definition If (test : node) (body orelse : list node) : node :=
  Node "If" [one test; many body; many orelse].
(** [Try(body, handlers, orelse, finalbody)] and
    [ExceptHandler(type, name, body)] *)
Definition Try (body handlers orelse finalbody : list node) : node :=
  Node "Try" [many body; many handlers; many orelse; many finalbody].
Definition ExceptHandler (type : option node) (name : option string) (body : list node) : node :=
  Node "ExceptHandler" [opt type; scalar (match name with Some s => PStr s | None => PNone end);
                        many body].
Definition Pass : node := Node "Pass" [].
