(* ===== verification/Transformer.v ===== *)
(** * Marker Transformer: [SidFunctionTransformer.visit_Call]

    [visit_Call] ([src/AutoPyFunc.py] lines 51-79) with the traversal
    [ast.NodeTransformer.visit]/[generic_visit] it is driven by.  The
    transformer's attributes [function_codes], [function_cache] are the
    fields of [tstate], together with the file system ([Cache.fsys]),
    the log, and the state [G] of the code generator.

    The generator ([self.generate_function] run by [asyncio.run], line
    72) is a parameter of the [Section]: a function of the name, the
    description and the generator's state, returning the new state, the
    events it logged and the text; [Client.v] gives the one of the
    source.  It never raises: [generate_function] catches every
    exception (lines 111-113).

    The file has two layers.  The monadic functions ([visit],
    [visit_Call], [generic_visit], [visit_module]) follow the source
    and [ast.NodeTransformer] statement by statement.  The pure
    functions [sites] and [rewrite] describe
    what one pass does: the marker sites it meets, in traversal order,
    and the tree it returns; [run_sites] performs the cache protocol on
    a list of sites.  [visit_refines_all] shows that the monadic
    traversal is the pure description; the theorems of [ModulePass]
    state the pass at the level of a module and of one marker, and
    [Witnesses] applies them to concrete trees. *)

From Stdlib Require Import String List Bool Lia ZArith.
From S2P Require Import Prelude PyVal PyDict Repr Cache PyAst.
Import ListNotations.

(** A marker site: [sid("desc")] or [sid(name, desc)], with the
    position of the call. *)
Inductive site : Type :=
| SiteDesc (pos : position) (desc : string)
| SiteNamed (pos : position) (name desc : pyval)
| SiteBadArity (pos : position).

(** The [function_name] the source computes for a site (line 56 or 61). *)
Definition site_name (st : site) : pyval :=
  match st with
  | SiteDesc _ d => PStr (space_to_underscore d)
  | SiteNamed _ n _ => n
  | SiteBadArity _ => PNone
  end.

Definition site_desc (st : site) : pyval :=
  match st with
  | SiteDesc _ d => PStr d
  | SiteNamed _ _ d => d
  | SiteBadArity _ => PNone
  end.

(** [cache_key = (function_name, description)] (line 68). *)
Definition site_key (st : site) : pykey := KPair (site_name st) (site_desc st).

(** The info line logged for a site (line 58 or 63). *)
Definition site_event (st : site) : log_event :=
  match st with
  | SiteDesc pos d => LGenerating (lineno pos) (col_offset pos) (PStr d)
  | SiteNamed pos n d => LGeneratingNamed (lineno pos) (col_offset pos) n d
  | SiteBadArity pos => LWrongArgs (lineno pos) (col_offset pos)
  end.

Definition is_marker_site (st : site) : bool :=
  match st with SiteBadArity _ => false | _ => true end.

(** [description.s.replace(' ', '_')]: [replace] exists on [str] only. *)
Definition py_replace_space (v : pyval) : res pyval :=
  match v with
  | PStr s => Ok (PStr (space_to_underscore s))
  | _ => Exc AttributeError
  end.

(** ** What one pass does, as pure functions *)

(** The sites [visit_Call] meets at a call of [sid]: one site for a
    well-formed marker; [None] when [.s] or [.replace] raises; for a
    wrong arity, the error site followed by the sites of
    [generic_visit]. *)
Definition sites_marker (pos : position) (args : list node)
    (generic : option (list site)) : option (list site) :=
  match args with
  | [a] => match a with Constant (PStr d) => Some [SiteDesc pos d] | _ => None end
  | [a; b] => match a, b with Constant n, Constant d => Some [SiteNamed pos n d] | _, _ => None end
  | _ => oapp (Some [SiteBadArity pos]) generic
  end.

Definition item_sites (sites : node -> option (list site)) (i : item node) : option (list site) :=
  match i with INode n => sites n | IScalar _ => Some [] end.

Definition field_sites (sites : node -> option (list site)) (f : field node) : option (list site) :=
  match f with FOne i => item_sites sites i | FList xs => concat_opt (item_sites sites) xs end.

(** The sites [generic_visit] meets below a node, field by field. *)
Definition generic_sites (sites : node -> option (list site)) (e : node) : option (list site) :=
  match e with
  | Name _ | Constant _ => Some []
  | Call _ f args kws => oapp (sites f) (oapp (concat_opt sites args) (concat_opt sites kws))
  | Node _ fs => concat_opt (field_sites sites) fs
  end.

(** The sites of a tree, in the order the traversal meets them. *)
Fixpoint sites (e : node) : option (list site) :=
  match e with
  | Call pos f args kws =>
      if is_sid f then sites_marker pos args (generic_sites sites e) else generic_sites sites e
  | _ => generic_sites sites e
  end.

Definition rewrite_marker (args : list node) (generic : node) : node :=
  match args with
  | [a] => match a with Constant (PStr d) => Name (PStr (space_to_underscore d)) | _ => generic end
  | [a; b] => match a, b with Constant n, Constant _ => Name n | _, _ => generic end
  | _ => generic
  end.

Definition item_map (f : node -> node) (i : item node) : item node :=
  match i with INode n => INode (f n) | IScalar v => IScalar v end.

Definition field_map (f : node -> node) (x : field node) : field node :=
  match x with FOne i => FOne (item_map f i) | FList xs => FList (map (item_map f) xs) end.

Definition generic_rewrite (rw : node -> node) (e : node) : node :=
  match e with
  | Name _ | Constant _ => e
  | Call pos f args kws => Call pos (rw f) (map rw args) (map rw kws)
  | Node c fs => Node c (map (field_map rw) fs)
  end.

(** The tree the traversal returns. *)
Fixpoint rewrite (e : node) : node :=
  match e with
  | Call pos f args kws =>
      if is_sid f then rewrite_marker args (generic_rewrite rewrite e) else generic_rewrite rewrite e
  | _ => generic_rewrite rewrite e
  end.

Definition sites_module (m : pymodule) : option (list site) := concat_opt sites (mod_body m).
Definition rewrite_module (m : pymodule) : pymodule := PyModule (map rewrite (mod_body m)).

Section Transformer.
Context {G : Type}.

(** [asyncio.run(self.generate_function(function_name, description))] *)
Variable generate : pyval -> pyval -> G -> G * list log_event * string.

Record tstate : Type := mk_tstate {
  function_codes : list string;
  function_cache : cache;
  tfs : fsys;
  tlog : list log_event;
  gstate : G
}.

Definition T (A : Type) : Type := pyst tstate A.

Definition add_log (evs : list log_event) (s : tstate) : tstate :=
  mk_tstate (function_codes s) (function_cache s) (tfs s) (tlog s ++ evs) (gstate s).

(** [self.function_codes.append(function_code)] (line 76) *)
Definition append_code (code : string) (s : tstate) : tstate :=
  mk_tstate (function_codes s ++ [code]) (function_cache s) (tfs s) (tlog s) (gstate s).

(** Lines 68-74: on a hit the cached text; on a miss, generate, store
    in the cache (even an empty text) and save the cache at once. *)
Definition lookup_or_generate (name desc : pyval) (s : tstate) : tstate * string :=
  let key := KPair name desc in
  match dict_get key_eqb key (function_cache s) with
  | Some code => (s, code)
  | None =>
      let '(g', glog, code) := generate name desc (gstate s) in
      let c' := dict_set key_eqb key code (function_cache s) in
      let '(fs', slog) := save_cache c' (tfs s) in
      (mk_tstate (function_codes s) c' fs' (tlog s ++ glog ++ slog) g', code)
  end.

(** Lines 68-77 once the name and description are known. *)
Definition emit (name desc : pyval) : T node :=
  fun s =>
    let '(s1, code) := lookup_or_generate name desc s in
    (append_code code (add_log [LGeneratedCode code] s1), Ok (Name name)).

Definition log (ev : log_event) : T unit := modify (add_log [ev]).

(** [visit_Call] on a call whose callee is the name [sid]
    (lines 54-77); [generic] is [self.generic_visit(node)]. *)
Definition visit_marker (pos : position) (args : list node) (generic : T node) : T node :=
  match args with
  | [a] =>
      v <- liftR (attr_s a) ;;
      function_name <- liftR (py_replace_space v) ;;
      log (LGenerating (lineno pos) (col_offset pos) v) ;;;
      emit function_name v
  | [a; b] =>
      function_name <- liftR (attr_s a) ;;
      description <- liftR (attr_s b) ;;
      log (LGeneratingNamed (lineno pos) (col_offset pos) function_name description) ;;;
      emit function_name description
  | _ =>
      log (LWrongArgs (lineno pos) (col_offset pos)) ;;;
      generic
  end.

Definition visit_item (visit : node -> T node) (i : item node) : T (item node) :=
  match i with
  | INode n => n' <- visit n ;; ret (INode n')
  | IScalar _ => ret i
  end.

Definition visit_field (visit : node -> T node) (f : field node) : T (field node) :=
  match f with
  | FOne i => i' <- visit_item visit i ;; ret (FOne i')
  | FList xs => xs' <- mapM (visit_item visit) xs ;; ret (FList xs')
  end.

(** [NodeTransformer.generic_visit(node)]: each field in [_fields]
    order; a node is replaced by what [visit] returns, a list by the
    list of what [visit] returns for its nodes. *)
Definition generic_visit (visit : node -> T node) (e : node) : T node :=
  match e with
  | Name _ | Constant _ => ret e
  | Call pos f args kws =>
      f' <- visit f ;; args' <- mapM visit args ;; kws' <- mapM visit kws ;;
      ret (Call pos f' args' kws')
  | Node c fs => fs' <- mapM (visit_field visit) fs ;; ret (Node c fs')
  end.

(** [visit_Call] (lines 51-79). *)
Definition visit_Call (visit : node -> T node) (pos : position) (f : node)
    (args kws : list node) : T node :=
  if is_sid f then visit_marker pos args (generic_visit visit (Call pos f args kws))
  else generic_visit visit (Call pos f args kws).

(** [NodeVisitor.visit(node)]: [visit_Call] for a call, [generic_visit]
    for any other class. *)
Fixpoint visit (e : node) : T node :=
  match e with
  | Call pos f args kws => visit_Call visit pos f args kws
  | _ => generic_visit visit e
  end.

(** [transformer.visit(module)] (line 145). *)
Definition visit_module (m : pymodule) : T pymodule :=
  body' <- mapM visit (mod_body m) ;; ret (PyModule body').

(** ** The cache protocol on a list of sites *)

Definition site_step (st : site) (s : tstate) : tstate :=
  match st with
  | SiteBadArity _ => add_log [site_event st] s
  | _ =>
      let '(s2, code) := lookup_or_generate (site_name st) (site_desc st) (add_log [site_event st] s) in
      append_code code (add_log [LGeneratedCode code] s2)
  end.

Definition run_sites (l : list site) (s : tstate) : tstate :=
  fold_left (fun s st => site_step st s) l s.

Lemma run_sites_app (l1 l2 : list site) (s : tstate) :
  run_sites (l1 ++ l2) s = run_sites l2 (run_sites l1 s).
Proof. apply fold_left_app. Qed.

(** [m] runs the sites [o] and returns [a]; when [o] is [None] it
    raises [AttributeError]. *)
Definition refines {A} (m : T A) (o : option (list site)) (a : A) : Prop :=
  (forall l s, o = Some l -> m s = (run_sites l s, Ok a)) /\
  (o = None -> forall s, exists s', m s = (s', Exc AttributeError)).
End Transformer.

Arguments tstate : clear implicits.

(** ** The traversal is the pure description *)

Section Refinement.
Context {G : Type} (generate : pyval -> pyval -> G -> G * list log_event * string).

Local Abbreviation refines := (refines generate).
Local Abbreviation run_sites := (run_sites generate).

Lemma refines_ret {A} (a : A) : refines (ret a) (Some []) a.
Proof. split; [intros l s [= <-]; reflexivity | discriminate]. Qed.

Lemma refines_bind {A B} (m : T A) (k : A -> T B) o o' a b :
  refines m o a -> refines (k a) o' b -> refines (bind m k) (oapp o o') b.
Proof.
  intros [Hm Hm'] [Hk Hk']. split.
  - intros l s Ho. destruct o as [l1|], o' as [l2|]; try discriminate.
    injection Ho as <-. unfold bind. rewrite (Hm l1 s eq_refl), (Hk l2 _ eq_refl).
    now rewrite run_sites_app.
  - intros Ho s. unfold bind. destruct o as [l1|].
    + rewrite (Hm l1 s eq_refl). destruct o' as [l2|]; [discriminate|]. now apply Hk'.
    + destruct (Hm' eq_refl s) as [s' ->]. eauto.
Qed.

Lemma refines_bind_ret {A B} (m : T A) (k : A -> B) o a b :
  refines m o a -> k a = b -> refines (bind m (fun x => ret (k x))) o b.
Proof.
  intros [Hm Hm'] <-. split.
  - intros l s Ho. unfold bind. now rewrite (Hm l s Ho).
  - intros Ho s. destruct (Hm' Ho s) as [s' E]. exists s'. unfold bind. now rewrite E.
Qed.

Lemma refines_mapM {A B} (f : A -> T B) (g : A -> option (list site)) (h : A -> B) l :
  Forall (fun x => refines (f x) (g x) (h x)) l ->
  refines (mapM f l) (concat_opt g l) (map h l).
Proof.
  intros Hl. split.
  - intros xs s Hxs. eapply (mapM_run run_sites); eauto using run_sites_app.
    eapply Forall_impl; [|exact Hl]. intros x [Hx _]. exact Hx.
  - intros Hn s. eapply (mapM_raise run_sites); eauto.
Qed.


Lemma refines_bad_arity (pos : position) :
  refines (log (LWrongArgs (lineno pos) (col_offset pos))) (Some [SiteBadArity pos]) tt.
Proof. split; [intros l s [= <-]; reflexivity | discriminate]. Qed.

Lemma refines_raise {A} (m : T A) (a : A) :
  (forall s, exists s', m s = (s', Exc AttributeError)) -> refines m None a.
Proof. intros H. split; [discriminate | auto]. Qed.

Lemma refines_emit_step (st : site) (m : T node) :
  is_marker_site st = true ->
  (forall s, m s = (site_step generate st s, Ok (Name (site_name st)))) ->
  refines m (Some [st]) (Name (site_name st)).
Proof. intros _ H. split; [intros l s [= <-]; apply H | discriminate]. Qed.

(** [visit_Call] on a call of [sid]. *)
Lemma refines_marker pos args gm go gr :
  refines gm go gr ->
  refines (visit_marker generate pos args gm) (sites_marker pos args go) (rewrite_marker args gr).
Proof.
  intros Hg.
  destruct args as [|a [|b [|c rest]]]; cbn [visit_marker sites_marker rewrite_marker].
  - exact (refines_bind _ _ _ _ _ _ (refines_bad_arity pos) Hg).
  - destruct a as [|[d| | |]| |]; try (apply refines_raise; eexists; reflexivity).
    apply (refines_emit_step (SiteDesc pos d)); [reflexivity|].
    intros s. cbn. unfold emit. destruct (lookup_or_generate _ _ _ _); reflexivity.
  - destruct a as [|n| |]; try (apply refines_raise; eexists; reflexivity).
    destruct b as [|d| |]; try (apply refines_raise; eexists; reflexivity).
    apply (refines_emit_step (SiteNamed pos n d)); [reflexivity|].
    intros s. cbn. unfold emit. destruct (lookup_or_generate _ _ _ _); reflexivity.
  - exact (refines_bind _ _ _ _ _ _ (refines_bad_arity pos) Hg).
Qed.

Ltac refine_step :=
  first [ apply refines_ret
        | eapply refines_bind_ret
        | eapply refines_bind
        | eapply refines_mapM
        | eassumption
        | reflexivity ].

Section Fields.
Variable v : node -> @T G node.
Variable sv : node -> option (list site).
Variable rw : node -> node.
Local Abbreviation ok := (fun n => refines (v n) (sv n) (rw n)).

Lemma refines_item (i : item node) :
  item_all ok i -> refines (visit_item v i) (item_sites sv i) (item_map rw i).
Proof. destruct i; cbn; intros H; repeat refine_step. Qed.

Lemma refines_field (f : field node) :
  field_all ok f -> refines (visit_field v f) (field_sites sv f) (field_map rw f).
Proof.
  destruct f as [i|xs]; cbn; intros H.
  - eapply refines_bind_ret; [apply refines_item, H | reflexivity].
  - eapply refines_bind_ret; [|reflexivity]. apply refines_mapM.
    eapply Forall_impl; [|exact H]. exact refines_item.
Qed.

(** [generic_visit] runs the sites of the children, field by field. *)
Lemma refines_generic (e : node) :
  match e with
  | Name _ | Constant _ => True
  | Call _ f args kws => ok f /\ Forall ok args /\ Forall ok kws
  | Node _ fs => Forall (field_all ok) fs
  end ->
  refines (generic_visit v e) (generic_sites sv e) (generic_rewrite rw e).
Proof.
  destruct e as [| |pos f args kws|c fs]; cbn; intros H; try apply refines_ret.
  - destruct H as (Hf & Ha & Hk). repeat refine_step.
  - eapply refines_bind_ret; [|reflexivity]. apply refines_mapM.
    eapply Forall_impl; [|exact H]. exact refines_field.
Qed.
End Fields.

(** One pass over a tree performs the cache protocol on its sites, in
    traversal order, and returns [rewrite]; when a marker's arguments
    are not literals of the right type it raises [AttributeError]. *)
Lemma visit_refines_all (e : node) :
  refines (visit generate e) (sites e) (rewrite e).
Proof.
  induction e as [id|c|pos f args kws Hf Ha Hk|cls fs Hfs] using node_ind';
    try exact (refines_generic _ _ _ (Name id) I);
    try exact (refines_generic _ _ _ (Constant c) I);
    try exact (refines_generic _ _ _ (Node cls fs) Hfs).
  cbn [visit sites rewrite]. unfold visit_Call.
  assert (Hg := refines_generic (visit generate) sites rewrite (Call pos f args kws) (conj Hf (conj Ha Hk))).
  destruct (is_sid f); [apply refines_marker|]; exact Hg.
Qed.

Lemma visit_module_refines_all (m : pymodule) :
  refines (visit_module generate m) (sites_module m) (rewrite_module m).
Proof.
  destruct m as [body]. unfold visit_module, sites_module, rewrite_module. simpl.
  eapply refines_bind_ret; [|reflexivity]. apply refines_mapM.
  apply Forall_forall. intros st _. apply visit_refines_all.
Qed.
End Refinement.

(** ** The cache protocol over a pass *)

Definition cache_lookup (c : cache) (k : pykey) : option string := dict_get key_eqb k c.

(** The keys of the well-formed marker sites, in order. *)
Definition marker_keys (l : list site) : list pykey := map site_key (filter is_marker_site l).

(** The texts a cache holds for the marker sites, in order. *)
Definition cached_codes (c : cache) (l : list site) : list string :=
  map (fun k => match cache_lookup c k with Some v => v | None => EmptyString end) (marker_keys l).

(** [k] is [==] to one of the keys [ks] (the test of [k in d]). *)
Definition known (ks : list pykey) (k : pykey) : bool := existsb (fun k' => key_eqb k' k) ks.

(** The keys of [l] that miss when their turn comes, starting from the
    keys [ks] of the cache: a miss adds its key. *)
Fixpoint misses (ks : list pykey) (l : list pykey) : list pykey :=
  match l with
  | [] => []
  | k :: l' => if known ks k then misses ks l' else k :: misses (ks ++ [k]) l'
  end.

(** The invariant of [function_cache]. *)
Definition cache_inv (c : cache) : Prop := pair_keys c /\ dict_wf key_eqb c.

Lemma dict_set_pair_keys (c : cache) (a b : pyval) (v : string) :
  pair_keys c -> pair_keys (dict_set key_eqb (KPair a b) v c).
Proof.
  unfold pair_keys. induction 1 as [|[k w] c Hk Hc IH]; simpl.
  - constructor; [now exists a, b | constructor].
  - destruct (key_eqb k (KPair a b)); constructor; auto.
Qed.

Section CacheProtocol.
Context {G : Type} (generate : pyval -> pyval -> G -> G * list log_event * string).

Local Abbreviation site_step := (site_step generate).
Local Abbreviation run_sites := (run_sites generate).

Lemma cache_lookup_congr (c : cache) (k1 k2 : pykey) :
  key_eqb k1 k2 = true -> cache_lookup c k1 = cache_lookup c k2.
Proof. apply dict_get_congr; [apply key_eqb_sym | apply key_eqb_trans]. Qed.

Lemma cache_lookup_set_ne (c : cache) (k k' : pykey) (v : string) :
  key_eqb k k' = false -> cache_lookup (dict_set key_eqb k v c) k' = cache_lookup c k'.
Proof. apply dict_get_set_ne; [apply key_eqb_sym | apply key_eqb_trans]. Qed.

Lemma cache_lookup_set_eq (c : cache) (k k' : pykey) (v : string) :
  key_eqb k k' = true -> cache_lookup (dict_set key_eqb k v c) k' = Some v.
Proof. apply dict_get_set_eq; [apply key_eqb_sym | apply key_eqb_trans]. Qed.

(** A marker site whose key is cached: the cached text is appended,
    nothing else changes but the log. *)
Lemma site_step_hit (st : site) (s : tstate G) (v : string) :
  is_marker_site st = true -> cache_lookup (function_cache s) (site_key st) = Some v ->
  site_step st s =
    mk_tstate (function_codes s ++ [v]) (function_cache s) (tfs s)
              (tlog s ++ [site_event st; LGeneratedCode v]) (gstate s).
Proof.
  intros Hm Hv. destruct st as [pos d|pos n d|pos]; [| |discriminate];
    unfold site_step, lookup_or_generate, cache_lookup, site_key, append_code, add_log in *;
    simpl in *;
    rewrite Hv; simpl; now rewrite <- app_assoc.
Qed.

(** A marker site whose key is not cached: one call of the generator,
    the text stored under the key, the cache saved, the text appended. *)
Lemma site_step_miss (st : site) (s : tstate G) :
  is_marker_site st = true -> cache_lookup (function_cache s) (site_key st) = None ->
  let '(g', glog, code) := generate (site_name st) (site_desc st) (gstate s) in
  let c' := dict_set key_eqb (site_key st) code (function_cache s) in
  let '(fs', slog) := save_cache c' (tfs s) in
  site_step st s =
    mk_tstate (function_codes s ++ [code]) c' fs'
              (tlog s ++ site_event st :: glog ++ slog ++ [LGeneratedCode code]) g'.
Proof.
  intros Hm Hv. destruct st as [pos d|pos n d|pos]; [| |discriminate];
    unfold site_step, lookup_or_generate, cache_lookup, site_key, append_code, add_log in *;
    simpl in *;
    rewrite Hv; destruct (generate _ _ _) as [[g' gl] code];
    destruct (save_cache _ _) as [fs' sl]; simpl; now rewrite <- !app_assoc.
Qed.

(** After a marker site its key is cached, with the text appended. *)
Lemma site_step_cached (st : site) (s : tstate G) :
  is_marker_site st = true ->
  exists code, cache_lookup (function_cache (site_step st s)) (site_key st) = Some code /\
               function_codes (site_step st s) = function_codes s ++ [code].
Proof.
  intros Hm. destruct (cache_lookup (function_cache s) (site_key st)) as [v|] eqn:Hv.
  - rewrite (site_step_hit st s v Hm Hv). eauto.
  - pose proof (site_step_miss st s Hm Hv) as H.
    destruct (generate _ _ _) as [[g' gl] code]. cbv zeta in H.
    destruct (save_cache (dict_set key_eqb (site_key st) code (function_cache s)) (tfs s))
      as [fs' sl]. rewrite H. simpl. exists code. split; [|reflexivity].
    apply cache_lookup_set_eq, key_eqb_refl.
Qed.

Lemma site_step_bad (pos : position) (s : tstate G) :
  site_step (SiteBadArity pos) s = add_log [LWrongArgs (lineno pos) (col_offset pos)] s.
Proof. reflexivity. Qed.

(** A step never changes nor removes an entry of the cache. *)
Lemma site_step_mono (st : site) (s : tstate G) (k : pykey) (v : string) :
  cache_lookup (function_cache s) k = Some v ->
  cache_lookup (function_cache (site_step st s)) k = Some v.
Proof.
  intros H. destruct (is_marker_site st) eqn:Hm.
  2: { destruct st; try discriminate. exact H. }
  destruct (cache_lookup (function_cache s) (site_key st)) as [w|] eqn:Hw.
  - now rewrite (site_step_hit st s w Hm Hw).
  - pose proof (site_step_miss st s Hm Hw) as E.
    destruct (generate _ _ _) as [[g' gl] code]. cbv zeta in E.
    destruct (save_cache (dict_set key_eqb (site_key st) code (function_cache s)) (tfs s))
      as [fs' sl]. rewrite E. simpl. destruct (key_eqb (site_key st) k) eqn:Ek.
    + rewrite (cache_lookup_congr _ _ _ Ek) in Hw. congruence.
    + now rewrite cache_lookup_set_ne.
Qed.

Lemma run_sites_cons (st : site) (l : list site) (s : tstate G) :
  run_sites (st :: l) s = run_sites l (site_step st s).
Proof. reflexivity. Qed.

Lemma run_sites_mono (l : list site) (s : tstate G) (k : pykey) (v : string) :
  cache_lookup (function_cache s) k = Some v ->
  cache_lookup (function_cache (run_sites l s)) k = Some v.
Proof.
  revert s. induction l as [|st l IH]; intros s H; [exact H|].
  rewrite run_sites_cons. apply IH, site_step_mono, H.
Qed.

(** After a pass every marker key is in the cache. *)
Lemma run_sites_covers (l : list site) (s : tstate G) (k : pykey) :
  In k (marker_keys l) -> exists v, cache_lookup (function_cache (run_sites l s)) k = Some v.
Proof.
  revert s. induction l as [|st l IH]; intros s Hk; [destruct Hk|].
  rewrite run_sites_cons. unfold marker_keys in Hk. simpl in Hk.
  destruct (is_marker_site st) eqn:Hm; [destruct Hk as [<-|Hk]|]; try (apply IH; exact Hk).
  destruct (site_step_cached st s Hm) as [code [Hc _]].
  exists code. apply run_sites_mono, Hc.
Qed.

Lemma site_step_codes_bad (st : site) (s : tstate G) :
  is_marker_site st = false -> function_codes (site_step st s) = function_codes s.
Proof. destruct st; try discriminate. reflexivity. Qed.

(** The pool gets, for each marker site in order, the text the cache
    holds for its key at the end of the pass. *)
Lemma run_sites_codes (l : list site) (s : tstate G) :
  function_codes (run_sites l s) =
  function_codes s ++ cached_codes (function_cache (run_sites l s)) l.
Proof.
  revert s. induction l as [|st l IH]; intros s; [simpl; now rewrite app_nil_r|].
  rewrite !run_sites_cons, IH. unfold cached_codes, marker_keys. cbn [filter].
  destruct (is_marker_site st) eqn:Hm; cbn [map].
  - destruct (site_step_cached st s Hm) as [code [Hc Hcodes]].
    rewrite Hcodes, (run_sites_mono l _ _ _ Hc), <- app_assoc. reflexivity.
  - now rewrite site_step_codes_bad.
Qed.

Lemma site_step_hit_frame (st : site) (s : tstate G) :
  (is_marker_site st = true -> exists v, cache_lookup (function_cache s) (site_key st) = Some v) ->
  function_cache (site_step st s) = function_cache s /\ tfs (site_step st s) = tfs s /\
  gstate (site_step st s) = gstate s.
Proof.
  intros H. destruct (is_marker_site st) eqn:Hm.
  - destruct (H eq_refl) as [v Hv]. now rewrite (site_step_hit st s v Hm Hv).
  - destruct st; try discriminate. repeat split.
Qed.

(** Every marker key already cached: the generator is not called (its
    state is unchanged), the cache and its file are untouched, and the
    pool gets the cached texts in order. *)
Theorem run_sites_all_hits (l : list site) (s : tstate G) :
  (forall k, In k (marker_keys l) -> exists v, cache_lookup (function_cache s) k = Some v) ->
  function_cache (run_sites l s) = function_cache s /\ tfs (run_sites l s) = tfs s /\
  gstate (run_sites l s) = gstate s /\
  function_codes (run_sites l s) = function_codes s ++ cached_codes (function_cache s) l.
Proof.
  intros Hall. enough (H : function_cache (run_sites l s) = function_cache s /\
                          tfs (run_sites l s) = tfs s /\ gstate (run_sites l s) = gstate s)
    by (destruct H as (Hc & Hf & Hg); repeat split; auto;
        rewrite run_sites_codes; now rewrite Hc).
  revert s Hall. induction l as [|st l IH]; intros s Hall; [repeat split|].
  rewrite run_sites_cons.
  assert (Hst := site_step_hit_frame st s).
  destruct Hst as (Hc & Hf & Hg).
  { intros Hm. apply Hall. unfold marker_keys. simpl. rewrite Hm. now left. }
  rewrite <- Hc, <- Hf, <- Hg. apply IH. intros k Hk. rewrite Hc. apply Hall.
  unfold marker_keys in *. simpl. destruct (is_marker_site st); [now right|exact Hk].
Qed.

(** A second pass over the same sites, from the cache the first one
    left, calls no generator, leaves cache and file alone, and adds the
    same texts to the pool as the first pass. *)
Theorem run_sites_rerun (l : list site) (s1 s2 : tstate G) :
  function_cache s2 = function_cache (run_sites l s1) ->
  gstate (run_sites l s2) = gstate s2 /\ function_cache (run_sites l s2) = function_cache s2 /\
  tfs (run_sites l s2) = tfs s2 /\
  exists added, function_codes (run_sites l s1) = function_codes s1 ++ added /\
                function_codes (run_sites l s2) = function_codes s2 ++ added.
Proof.
  intros Hc. destruct (run_sites_all_hits l s2) as (H1 & H2 & H3 & H4).
  { intros k Hk. rewrite Hc. now apply run_sites_covers. }
  repeat split; auto. exists (cached_codes (function_cache (run_sites l s1)) l).
  split; [apply run_sites_codes | now rewrite H4, Hc].
Qed.

Lemma site_step_cases (st : site) (s : tstate G) :
  function_cache (site_step st s) = function_cache s \/
  function_cache (site_step st s) =
    dict_set key_eqb (site_key st) (snd (generate (site_name st) (site_desc st) (gstate s)))
             (function_cache s).
Proof.
  destruct (is_marker_site st) eqn:Hm; [|destruct st; try discriminate; now left].
  destruct (cache_lookup (function_cache s) (site_key st)) as [v|] eqn:Hv.
  - left. now rewrite (site_step_hit st s v Hm Hv).
  - right. pose proof (site_step_miss st s Hm Hv) as E.
    destruct (generate _ _ _) as [[g' gl] code]. cbv zeta in E.
    destruct (save_cache (dict_set key_eqb (site_key st) code (function_cache s)) (tfs s)).
    now rewrite E.
Qed.

(** The cache keeps its invariant through a pass: every key is a pair
    and no two keys are [==]. *)
Theorem run_sites_inv (l : list site) (s : tstate G) :
  cache_inv (function_cache s) -> cache_inv (function_cache (run_sites l s)).
Proof.
  revert s. induction l as [|st l IH]; intros s Hinv; [exact Hinv|].
  rewrite run_sites_cons. apply IH.
  destruct (site_step_cases st s) as [-> | ->]; [exact Hinv|].
  destruct Hinv as [Hp Hw]. split.
  - now apply dict_set_pair_keys.
  - apply dict_set_wf; [apply key_eqb_sym | apply key_eqb_trans | exact Hw].
Qed.
End CacheProtocol.

(** ** A generator that always answers the same text *)

Section ConstGen.
Context {G : Type} (generate : pyval -> pyval -> G -> G * list log_event * string).
Variable inv : G -> Prop.
Variable v : string.
(** Under [inv], kept by every call, the generator answers [v]. *)
Hypothesis generate_inv : forall n d g, inv g -> inv (fst (fst (generate n d g))).
Hypothesis generate_text : forall n d g, inv g -> snd (generate n d g) = v.

Definition all_values (c : cache) : Prop := Forall (fun kv => snd kv = v) c.

Lemma site_step_gstate (st : site) (s : tstate G) :
  gstate (site_step generate st s) = gstate s \/
  gstate (site_step generate st s) = fst (fst (generate (site_name st) (site_desc st) (gstate s))).
Proof.
  destruct (is_marker_site st) eqn:Hm; [|destruct st; try discriminate; now left].
  destruct (cache_lookup (function_cache s) (site_key st)) as [w|] eqn:Hv.
  - left. now rewrite (site_step_hit generate st s w Hm Hv).
  - right. pose proof (site_step_miss generate st s Hm Hv) as E.
    destruct (generate _ _ _) as [[g' gl] code]. cbv zeta in E.
    destruct (save_cache (dict_set key_eqb (site_key st) code (function_cache s)) (tfs s)).
    now rewrite E.
Qed.

(** Every value of the cache stays [v] through a pass. *)
Lemma run_sites_values (l : list site) (s : tstate G) :
  inv (gstate s) -> all_values (function_cache s) ->
  inv (gstate (run_sites generate l s)) /\ all_values (function_cache (run_sites generate l s)).
Proof.
  revert s. induction l as [|st l IH]; intros s Hi Hv; [auto|]. rewrite run_sites_cons.
  apply IH.
  - destruct (site_step_gstate st s) as [-> | ->]; auto.
  - destruct (site_step_cases generate st s) as [-> | ->]; [exact Hv|].
    apply (dict_set_Forall key_eqb (fun w => w = v)); [exact Hv | auto].
Qed.

(** The pool then holds [v] once per marker site. *)
Lemma run_sites_const_codes (l : list site) (s : tstate G) :
  inv (gstate s) -> all_values (function_cache s) ->
  function_codes (run_sites generate l s) = function_codes s ++ repeat v (length (marker_keys l)).
Proof.
  intros Hi Hv. rewrite run_sites_codes. f_equal. unfold cached_codes.
  destruct (run_sites_values l s Hi Hv) as [_ Hf].
  assert (H : forall k, In k (marker_keys l) ->
    match cache_lookup (function_cache (run_sites generate l s)) k with Some w => w | None => EmptyString end = v).
  { intros k Hk. destruct (run_sites_covers generate l s k Hk) as [w Hw]. rewrite Hw.
    exact (dict_get_Forall key_eqb (fun w => w = v) k _ w Hf Hw). }
  induction (marker_keys l) as [|k ks IHk]; [reflexivity|]. cbn [map repeat length].
  rewrite (H k (or_introl eq_refl)), IHk; [reflexivity|]. intros k' Hk'. apply H. now right.
Qed.
End ConstGen.

(** ** How often the generator runs *)

Lemma cache_lookup_known (c : cache) (k : pykey) :
  known (map fst c) k = match cache_lookup c k with Some _ => true | None => false end.
Proof.
  unfold cache_lookup. rewrite <- dict_mem_get.
  induction c as [|[k' v] c IH]; simpl; [reflexivity|]. now rewrite IH.
Qed.

Lemma known_app (ks : list pykey) (k x : pykey) :
  known (ks ++ [k]) x = known ks x || key_eqb k x.
Proof. unfold known. rewrite existsb_app. simpl. now rewrite orb_false_r. Qed.

(** No key of [misses ks l] is known in [ks]. *)
Lemma misses_unknown (ks l : list pykey) (x : pykey) :
  In x (misses ks l) -> known ks x = false.
Proof.
  revert ks. induction l as [|k l IH]; intros ks H; [destruct H|]. simpl in H.
  destruct (known ks k) eqn:Hk; [exact (IH ks H)|].
  destruct H as [<-|H]; [exact Hk|]. apply IH in H. rewrite known_app in H.
  now apply orb_false_iff in H as [H _].
Qed.

(** Each key misses at most once, and no more keys miss than there are
    marker sites. *)
Lemma misses_bounds (ks l : list pykey) :
  (length (misses ks l) <= length l)%nat /\
  ForallOrdPairs (fun a b => key_eqb a b = false) (misses ks l).
Proof.
  revert ks. induction l as [|k l IH]; intros ks; [split; [reflexivity | constructor]|]. simpl.
  destruct (known ks k); [destruct (IH ks); split; [lia | assumption]|].
  destruct (IH (ks ++ [k])) as [Hl Hp]. split; [simpl; lia|]. constructor; [|exact Hp].
  apply Forall_forall. intros x Hx. apply misses_unknown in Hx. rewrite known_app in Hx.
  now apply orb_false_iff in Hx as [_ Hx].
Qed.

(** ** A key that does not unpack *)

(** Assigning keeps every stored key, so a key that does not unpack
    keeps [save_cache] failing. *)
Lemma encode_entries_set_exc (c : cache) (k : pykey) (v : string) (e : pyexc) :
  encode_entries c = Exc e -> exists e', encode_entries (dict_set key_eqb k v c) = Exc e'.
Proof.
  revert e. induction c as [|[k0 v0] c IH]; intros e H; [discriminate|]. cbn [dict_set].
  cbn [encode_entries] in H. destruct (key_eqb k0 k); cbn [encode_entries].
  - destruct (unpack2 k0) as [[a b]|e0]; [|eauto].
    destruct (encode_entries c) as [l|e1]; [discriminate | eauto].
  - destruct (unpack2 k0) as [[a b]|e0]; [|eauto].
    destruct (encode_entries c) as [l|e1] eqn:Ec; [discriminate|].
    destruct (IH e1 eq_refl) as [e' ->]. eauto.
Qed.

Section BadKey.
Context {G : Type} (generate : pyval -> pyval -> G -> G * list log_event * string).

Definition bad_cache (s : tstate G) : Prop :=
  cache_writable (tfs s) = true /\ exists e, encode_entries (function_cache s) = Exc e.

Definition truncated (fs : fsys) : Prop := load_cache fs = ([], [LCacheLoadFailed]).

Lemma save_cache_bad (c : cache) (fs : fsys) (e : pyexc) :
  cache_writable fs = true -> encode_entries c = Exc e ->
  save_cache c fs = (mk_fsys (Some JOther) true, [LCacheSaveFailed]).
Proof. intros Hw He. unfold save_cache. now rewrite Hw, He. Qed.

(** From a cache holding a key that does not unpack, the first miss
    truncates the file and every later save truncates it again. *)
Lemma run_sites_bad (l : list site) (s : tstate G) :
  bad_cache s ->
  truncated (tfs s) \/ misses (map fst (function_cache s)) (marker_keys l) <> [] ->
  truncated (tfs (run_sites generate l s)).
Proof.
  revert s. induction l as [|st l IH]; intros s Hb Ht.
  - destruct Ht as [Ht|Ht]; [exact Ht | now destruct Ht].
  - rewrite run_sites_cons. unfold marker_keys in Ht. cbn [filter] in Ht.
    destruct (is_marker_site st) eqn:Hm; [|destruct st; try discriminate; apply IH; assumption].
    cbn [map misses] in Ht. rewrite cache_lookup_known in Ht.
    destruct Hb as [Hw [e He]].
    destruct (cache_lookup (function_cache s) (site_key st)) as [w|] eqn:Hv.
    + rewrite (site_step_hit generate st s w Hm Hv). apply IH; [split; eauto | exact Ht].
    + pose proof (site_step_miss generate st s Hm Hv) as E.
      destruct (generate _ _ _) as [[g' gl] code]. cbv zeta in E.
      destruct (encode_entries_set_exc (function_cache s) (site_key st) code e He) as [e' He'].
      rewrite (save_cache_bad _ _ e' Hw He') in E. rewrite E. apply IH.
      * split; [reflexivity | eauto].
      * left. reflexivity.
Qed.
End BadKey.

Section Counting.
Context {G : Type} (generate : pyval -> pyval -> G -> G * list log_event * string).
Variable calls : G -> nat.
(** The generator counts its calls. *)
Hypothesis generate_calls : forall n d g, calls (fst (fst (generate n d g))) = S (calls g).

(** The generator runs once per key that misses. *)
Lemma run_sites_calls (l : list site) (s : tstate G) :
  calls (gstate (run_sites generate l s)) =
  (calls (gstate s) + length (misses (map fst (function_cache s)) (marker_keys l)))%nat.
Proof.
  revert s. induction l as [|st l IH]; intros s; [simpl; lia|].
  rewrite run_sites_cons, IH. unfold marker_keys. cbn [filter].
  destruct (is_marker_site st) eqn:Hm; [|destruct st; try discriminate; reflexivity].
  cbn [map misses]. rewrite cache_lookup_known.
  destruct (cache_lookup (function_cache s) (site_key st)) as [v|] eqn:Hv.
  - now rewrite (site_step_hit generate st s v Hm Hv).
  - pose proof (site_step_miss generate st s Hm Hv) as E.
    pose proof (generate_calls (site_name st) (site_desc st) (gstate s)) as Hc.
    destruct (generate _ _ _) as [[g' gl] code]. cbv zeta in E.
    destruct (save_cache (dict_set key_eqb (site_key st) code (function_cache s)) (tfs s))
      as [fs' sl]. rewrite E. cbn [gstate function_cache fst] in *.
    rewrite dict_set_absent, map_app by (rewrite dict_mem_get; unfold cache_lookup in Hv; now rewrite Hv).
    simpl. lia.
Qed.
End Counting.

(** ** Names in the output *)

Definition is_str (v : pyval) : bool := match v with PStr _ => true | _ => false end.

Definition item_ok (p : node -> bool) (i : item node) : bool :=
  match i with INode n => p n | IScalar _ => true end.

Definition field_ok (p : node -> bool) (f : field node) : bool :=
  match f with FOne i => item_ok p i | FList xs => forallb (item_ok p) xs end.

(** Every [Name] of the tree holds a [str], as [ast.Name.id] must for
    [compile] and for an unparsed text that names the function. *)
Fixpoint str_names (e : node) : bool :=
  match e with
  | Name id => is_str id
  | Constant _ => true
  | Call _ f args kws => str_names f && forallb str_names args && forallb str_names kws
  | Node _ fs => forallb (field_ok str_names) fs
  end.

(** The name a site puts in the tree is a [str]. *)
Definition site_named_str (st : site) : bool :=
  match st with SiteNamed _ n _ => is_str n | _ => true end.

(** A tree whose names are [str]s keeps that property through
    [rewrite] when each [sid(name, desc)] it rewrites has a [str]
    [name]; the one-argument form always builds a [str]. *)
Lemma rewrite_str_names (e : node) :
  all_some site_named_str (sites e) -> str_names e = true -> str_names (rewrite e) = true.
Proof.
  induction e as [id|c|pos f args kws Hf Ha Hk|cls fs Hfs] using node_ind'; try (cbn; auto; fail).
  - assert (Hg : all_some site_named_str (generic_sites sites (Call pos f args kws)) ->
                 str_names (Call pos f args kws) = true ->
                 str_names (generic_rewrite rewrite (Call pos f args kws)) = true).
    { cbn [generic_sites generic_rewrite str_names]. intros Hs Hn.
      apply oapp_all_some in Hs as [Hsf Hs]. apply oapp_all_some in Hs as [Hsa Hsk].
      apply andb_true_iff in Hn as [Hn Hnk]. apply andb_true_iff in Hn as [Hnf Hna].
      rewrite (Hf Hsf Hnf), (forallb_map_pres _ _ _ _ Ha (concat_opt_all_some _ _ _ Hsa) Hna).
      exact (forallb_map_pres _ _ _ _ Hk (concat_opt_all_some _ _ _ Hsk) Hnk). }
    cbn [sites rewrite]. destruct (is_sid f); [|exact Hg]. intros Hs Hn.
    destruct args as [|a [|b [|x rest]]]; cbn [sites_marker rewrite_marker] in *;
      try (apply oapp_all_some in Hs as [_ Hs]; exact (Hg Hs Hn)).
    + destruct a as [|[d| | |]| |]; try (destruct Hs as (? & E & _); discriminate E). reflexivity.
    + destruct a as [|n| |], b as [|d| |]; try (destruct Hs as (? & E & _); discriminate E).
      destruct Hs as (xs & [= <-] & Hxs). cbn in Hxs |- *. now rewrite andb_true_r in Hxs.
  - cbn [sites rewrite generic_sites generic_rewrite str_names]. intros Hs Hn.
    apply concat_opt_all_some in Hs. refine (forallb_map_pres _ _ _ _ _ Hs Hn).
    eapply Forall_impl; [|exact Hfs]. intros [[n|v]|xs] Hx Hsx Hox; cbn in *; auto.
    refine (forallb_map_pres _ _ _ _ _ (concat_opt_all_some _ _ _ Hsx) Hox).
    eapply Forall_impl; [|exact Hx]. intros [n|v] Hn' Hs' Ho'; cbn in *; auto.
Qed.

(** ** Passes over the module as a whole *)

Section ModulePass.
Context {G : Type} (generate : pyval -> pyval -> G -> G * list log_event * string).

(** C1. A pass over a module whose markers are well formed runs the cache
    protocol on the call sites [sites_module m], in the order
    [generic_visit] meets them, and returns [rewrite_module m]; a pass
    over any other module raises [AttributeError]. *)
Theorem visit_module_refines (m : pymodule) (s : tstate G) :
  match sites_module m with
  | Some l => visit_module generate m s = (run_sites generate l s, Ok (rewrite_module m))
  | None => snd (visit_module generate m s) = Exc AttributeError
  end.
Proof.
  destruct (sites_module m) as [l|] eqn:E.
  - exact (proj1 (visit_module_refines_all generate m) l s E).
  - destruct (proj2 (visit_module_refines_all generate m) E s) as [s' ->]. reflexivity.
Qed.



Lemma visit_run (e : node) (l : list site) (s : tstate G) :
  sites e = Some l -> visit generate e s = (run_sites generate l s, Ok (rewrite e)).
Proof. intros H. exact (proj1 (visit_refines_all generate e) l s H). Qed.

Lemma visit_module_run (m : pymodule) (l : list site) (s : tstate G) :
  sites_module m = Some l -> visit_module generate m s = (run_sites generate l s, Ok (rewrite_module m)).
Proof. intros H. exact (proj1 (visit_module_refines_all generate m) l s H). Qed.

(** C6. [sid("d")] whose key [(d.replace(' ', '_'), d)] is cached: the call
    becomes the name [d.replace(' ', '_')], the cached text is
    appended, the generator, the cache and its file are untouched. *)
Theorem visit_sid_desc_hit (pos : position) (d : string) (kws : list node)
    (s : tstate G) (v : string) :
  cache_lookup (function_cache s) (KPair (PStr (space_to_underscore d)) (PStr d)) = Some v ->
  visit generate (Call pos (Name (PStr "sid")) [Constant (PStr d)] kws) s =
    (mk_tstate (function_codes s ++ [v]) (function_cache s) (tfs s)
       (tlog s ++ [LGenerating (lineno pos) (col_offset pos) (PStr d); LGeneratedCode v])
       (gstate s),
     Ok (Name (PStr (space_to_underscore d)))).
Proof.
  intros Hv. rewrite (visit_run (Call pos (Name (PStr "sid")) [Constant (PStr d)] kws) [SiteDesc pos d] s eq_refl).
  cbn [run_sites fold_left]. now rewrite (site_step_hit generate (SiteDesc pos d) s v eq_refl Hv).
Qed.

(** C7. [sid(n, d)] whose key [(n, d)] is not cached: the generator is
    called once with [n] and [d], its text is stored under [(n, d)],
    the cache is saved, the text appended, and the call becomes the
    name [n], verbatim. *)
Theorem visit_sid_named_miss (pos : position) (n d : pyval) (kws : list node) (s : tstate G) :
  cache_lookup (function_cache s) (KPair n d) = None ->
  let '(g', glog, code) := generate n d (gstate s) in
  let c' := dict_set key_eqb (KPair n d) code (function_cache s) in
  let '(fs', slog) := save_cache c' (tfs s) in
  visit generate (Call pos (Name (PStr "sid")) [Constant n; Constant d] kws) s =
    (mk_tstate (function_codes s ++ [code]) c' fs'
       (tlog s ++ LGeneratingNamed (lineno pos) (col_offset pos) n d :: glog ++ slog ++
        [LGeneratedCode code]) g',
     Ok (Name n)).
Proof.
  intros Hv. rewrite (visit_run (Call pos (Name (PStr "sid")) [Constant n; Constant d] kws) [SiteNamed pos n d] s eq_refl).
  pose proof (site_step_miss generate (SiteNamed pos n d) s eq_refl Hv) as E.
  change (site_key (SiteNamed pos n d)) with (KPair n d) in E.
  cbn [site_name site_desc site_event] in E.
  cbn [run_sites fold_left]. destruct (generate n d (gstate s)) as [[g' glog] code].
  cbv zeta in *.
  destruct (save_cache (dict_set key_eqb (KPair n d) code (function_cache s)) (tfs s)) as [fs' slog].
  cbn [run_sites fold_left]. now rewrite E.
Qed.

(** C8. A pass over a module whose marker keys are all cached calls no
    generator, leaves the cache and its file alone, and appends the
    cached texts in traversal order. *)
Theorem visit_module_all_cached (m : pymodule) (l : list site) (s : tstate G) :
  sites_module m = Some l ->
  (forall k, In k (marker_keys l) -> exists v, cache_lookup (function_cache s) k = Some v) ->
  let (s', r) := visit_module generate m s in
  r = Ok (rewrite_module m) /\ gstate s' = gstate s /\ function_cache s' = function_cache s /\
  tfs s' = tfs s /\ function_codes s' = function_codes s ++ cached_codes (function_cache s) l.
Proof.
  intros Hl Hall. rewrite (visit_module_run m l s Hl).
  destruct (run_sites_all_hits generate l s Hall) as (H1 & H2 & H3 & H4). auto.
Qed.

(** C9. After a pass, every marker key of the module is in the cache, and
    the pool has grown by the texts the cache holds for them, in
    traversal order. *)
Theorem visit_module_pool (m : pymodule) (l : list site) (s : tstate G) :
  sites_module m = Some l ->
  let (s', _) := visit_module generate m s in
  (forall k, In k (marker_keys l) -> exists v, cache_lookup (function_cache s') k = Some v) /\
  function_codes s' = function_codes s ++ cached_codes (function_cache s') l.
Proof.
  intros Hl. rewrite (visit_module_run m l s Hl).
  split; [intros k Hk; now apply run_sites_covers | apply run_sites_codes].
Qed.

(** C10. A pass keeps the invariant of the cache: keys are pairs, no two of
    them [==]. *)
Theorem visit_module_cache_inv (m : pymodule) (l : list site) (s : tstate G) :
  sites_module m = Some l -> cache_inv (function_cache s) ->
  cache_inv (function_cache (fst (visit_module generate m s))).
Proof. intros Hl Hi. rewrite (visit_module_run m l s Hl). now apply run_sites_inv. Qed.
(** C30. Well-typed output: when every [Name] of the input holds a
    [str] and every [sid(name, desc)] has a [str] [name], the pass
    returns a module whose [Name]s all hold [str]s.  Without the second
    condition it does not: [sid(1, "d")] becomes [Name(id=1)]. *)
Theorem visit_module_str_names (m : pymodule) (l : list site) (s : tstate G) :
  sites_module m = Some l -> forallb site_named_str l = true ->
  forallb str_names (mod_body m) = true ->
  exists m', snd (visit_module generate m s) = Ok m' /\ forallb str_names (mod_body m') = true.
Proof.
  intros Hl Hn Hm. exists (rewrite_module m). rewrite (visit_module_run m l s Hl). split; [reflexivity|].
  assert (Hs : all_some site_named_str (sites_module m)) by (exists l; auto).
  refine (forallb_map_pres _ _ _ _ _ (concat_opt_all_some _ _ _ Hs) Hm).
  apply Forall_forall. intros e _. apply rewrite_str_names.
Qed.
(** C23. A cache loaded with a key that does not unpack into two
    values (an integer key, a [str] key of another length, written by
    hand or by an older version): the first marker of the pass that
    misses makes [save_cache] truncate the file and fail, and the file
    the pass leaves loads as no cache at all, the new entries included. *)
Theorem visit_module_bad_key_truncates (m : pymodule) (l : list site) (s : tstate G) (e : pyexc) :
  sites_module m = Some l -> cache_writable (tfs s) = true ->
  encode_entries (function_cache s) = Exc e ->
  misses (map fst (function_cache s)) (marker_keys l) <> [] ->
  load_cache (tfs (fst (visit_module generate m s))) = ([], [LCacheLoadFailed]).
Proof.
  intros Hl Hw He Hm. rewrite (visit_module_run m l s Hl). cbn [fst].
  apply run_sites_bad; [split; eauto | right; exact Hm].
Qed.

End ModulePass.

Section PassCounting.
Context {G : Type} (generate : pyval -> pyval -> G -> G * list log_event * string).
Variable calls : G -> nat.
Hypothesis generate_calls : forall n d g, calls (fst (fst (generate n d g))) = S (calls g).

(** C27. A pass calls the generator exactly once for each marker key
    that is not in the cache when its turn comes: at most once per
    marker site, and never twice for two keys that are [==]. *)
Theorem visit_module_generator_calls (m : pymodule) (l : list site) (s : tstate G) :
  sites_module m = Some l ->
  let ms := misses (map fst (function_cache s)) (marker_keys l) in
  calls (gstate (fst (visit_module generate m s))) = (calls (gstate s) + length ms)%nat /\
  (length ms <= length (marker_keys l))%nat /\
  ForallOrdPairs (fun a b => key_eqb a b = false) ms.
Proof.
  intros Hl. rewrite (visit_module_run generate m l s Hl). cbn [fst].
  split; [exact (run_sites_calls generate calls generate_calls l s) | apply misses_bounds].
Qed.
End PassCounting.

(** ** Witnesses *)

Module Witnesses.
Local Open Scope string_scope.
Local Open Scope list_scope.
Definition echo (_ d : pyval) (n : nat) : nat * list log_event * string := (S n, [], py_repr d).
Definition st0 : tstate nat := mk_tstate [] [] (mk_fsys None true) [] 0.
Definition m_x : pymodule :=
  PyModule [Expr (Call (mk_pos 1 0) (Name (PStr "sid")) [Constant (PStr "a"); Constant (PStr "b")] [])].
Lemma visit_sid_desc_hit_witness :
  cache_lookup [(KPair (PStr "a_b") (PStr "a b"), "v")] (KPair (PStr (space_to_underscore "a b")) (PStr "a b")) = Some "v" /\
  visit echo (Call (mk_pos 1 0) (Name (PStr "sid")) [Constant (PStr "a b")] [])
    (mk_tstate [] [(KPair (PStr "a_b") (PStr "a b"), "v")] (mk_fsys None true) [] 0) =
    (mk_tstate ([] ++ ["v"]) [(KPair (PStr "a_b") (PStr "a b"), "v")] (mk_fsys None true)
       ([] ++ [LGenerating 1 0 (PStr "a b"); LGeneratedCode "v"]) 0,
     Ok (Name (PStr (space_to_underscore "a b")))).
Proof.
  split; [reflexivity |].
  exact (visit_sid_desc_hit echo (mk_pos 1 0) "a b" []
           (mk_tstate [] [(KPair (PStr "a_b") (PStr "a b"), "v")] (mk_fsys None true) [] 0) "v"
           eq_refl).
Defined.
Definition l_x : list site := [SiteNamed (mk_pos 1 0) (PStr "a") (PStr "b")].
Definition st_x : tstate nat :=
  mk_tstate [] [(KPair (PStr "a") (PStr "b"), "code")] (mk_fsys None true) [] 0.

Lemma visit_sid_named_miss_witness :
  cache_lookup [] (KPair (PStr "f") (PStr "d")) = None /\
  let '(g', glog, code) := echo (PStr "f") (PStr "d") (gstate st0) in
  let c' := dict_set key_eqb (KPair (PStr "f") (PStr "d")) code (function_cache st0) in
  let '(fs', slog) := save_cache c' (tfs st0) in
  visit echo (Call (mk_pos 2 4) (Name (PStr "sid")) [Constant (PStr "f"); Constant (PStr "d")] [])
    st0 =
    (mk_tstate (function_codes st0 ++ [code]) c' fs'
       (tlog st0 ++ LGeneratingNamed 2 4 (PStr "f") (PStr "d") :: glog ++ slog ++
        [LGeneratedCode code]) g',
     Ok (Name (PStr "f"))).
Proof.
  split; [reflexivity |].
  exact (visit_sid_named_miss echo (mk_pos 2 4) (PStr "f") (PStr "d") [] st0 eq_refl).
Defined.

Lemma visit_module_all_cached_witness :
  sites_module m_x = Some l_x /\
  (forall k, In k (marker_keys l_x) -> exists v, cache_lookup (function_cache st_x) k = Some v) /\
  let (s', r) := visit_module echo m_x st_x in
  r = Ok (rewrite_module m_x) /\ gstate s' = gstate st_x /\
  function_cache s' = function_cache st_x /\ tfs s' = tfs st_x /\
  function_codes s' = function_codes st_x ++ cached_codes (function_cache st_x) l_x.
Proof.
  assert (H : forall k, In k (marker_keys l_x) -> exists v, cache_lookup (function_cache st_x) k = Some v).
  { intros k [<-|[]]. exists "code". reflexivity. }
  split; [reflexivity | split; [exact H |]].
  exact (visit_module_all_cached echo m_x l_x st_x eq_refl H).
Defined.

Lemma visit_module_pool_witness :
  sites_module m_x = Some l_x /\
  let (s', _) := visit_module echo m_x st0 in
  (forall k, In k (marker_keys l_x) -> exists v, cache_lookup (function_cache s') k = Some v) /\
  function_codes s' = function_codes st0 ++ cached_codes (function_cache s') l_x.
Proof. split; [reflexivity | exact (visit_module_pool echo m_x l_x st0 eq_refl)]. Defined.

Lemma visit_module_cache_inv_witness :
  sites_module m_x = Some l_x /\ cache_inv (function_cache st_x) /\
  cache_inv (function_cache (fst (visit_module echo m_x st_x))).
Proof.
  assert (H : cache_inv (function_cache st_x)).
  { split; [repeat constructor; eexists; eexists; reflexivity | vm_compute; tauto]. }
  split; [reflexivity | split; [exact H |]].
  exact (visit_module_cache_inv echo m_x l_x st_x eq_refl H).
Defined.
Lemma visit_module_generator_calls_witness :
  (forall n d g, (fun g => g) (fst (fst (echo n d g))) = S ((fun g => g) g)) /\
  sites_module m_x = Some l_x /\
  let ms := misses (map fst (function_cache st0)) (marker_keys l_x) in
  (fun g => g) (gstate (fst (visit_module echo m_x st0))) = ((fun g => g) (gstate st0) + length ms)%nat /\
  (length ms <= length (marker_keys l_x))%nat /\
  ForallOrdPairs (fun a b => key_eqb a b = false) ms.
Proof.
  assert (Hc : forall n d g, (fun g => g) (fst (fst (echo n d g))) = S ((fun g => g) g))
    by reflexivity.
  split; [exact Hc | split; [reflexivity |]].
  exact (visit_module_generator_calls echo (fun g => g) Hc m_x l_x st0 eq_refl).
Defined.
Lemma visit_module_str_names_witness :
  sites_module m_x = Some l_x /\ forallb site_named_str l_x = true /\
  forallb str_names (mod_body m_x) = true /\
  exists m', snd (visit_module echo m_x st0) = Ok m' /\ forallb str_names (mod_body m') = true.
Proof.
  do 3 (split; [reflexivity |]).
  exact (visit_module_str_names echo m_x l_x st0 eq_refl eq_refl eq_refl).
Defined.
Definition st_bad : tstate nat := mk_tstate [] [(KAtom (PInt 1), "x")] (mk_fsys None true) [] 0.

Lemma visit_module_bad_key_truncates_witness :
  sites_module m_x = Some l_x /\ cache_writable (tfs st_bad) = true /\
  encode_entries (function_cache st_bad) = Exc TypeError /\
  misses (map fst (function_cache st_bad)) (marker_keys l_x) <> [] /\
  load_cache (tfs (fst (visit_module echo m_x st_bad))) = ([], [LCacheLoadFailed]).
Proof.
  assert (Hm : misses (map fst (function_cache st_bad)) (marker_keys l_x) <> []) by (vm_compute; discriminate).
  do 3 (split; [reflexivity |]). split; [exact Hm |].
  exact (visit_module_bad_key_truncates echo m_x l_x st_bad TypeError eq_refl eq_refl eq_refl Hm).
Defined.

End Witnesses.

