(* ===== verification/Fence.v ===== *)
(** * Extracting a fenced code block from the model's answer

    [generate_function] runs
    [re.search(r'```.*?\n(.*?)```', code, re.DOTALL)] and keeps group 1
    when there is a match ([src/AutoPyFunc.py] lines 107-108).

    [regex_search] is that search as Python's [re] engine performs it:
    start positions left to right; at a start, the lazy [.*?] takes
    0, 1, 2, ... characters (any character, [DOTALL]) before the [\n];
    the lazy group takes the shortest text before the next three
    backticks; a failure backtracks to the next choice.  [first_fence]
    is the direct reading: the first three backticks, the first newline
    after them, the text up to the next three backticks.  The two are
    equal ([regex_search_first_fence]): the backtracking never finds a
    match the direct scan misses.  [fenced_block] states what the
    pattern means with [str.partition] ([str_partition]), written
    without either matcher: the text after the first ["```"], after the
    first newline there, up to the next ["```"].  [extract_code] is
    that block, or the whole answer when there is none. *)

From Stdlib Require Import String Ascii List Bool.
From S2P Require Import Prelude.
Import ListNotations.

Local Open Scope string_scope.

Definition backtick : ascii := "`"%char.
Definition newline : ascii := ascii_of_nat 10.

Definition fence3 (s : string) : bool :=
  match s with
  | String a (String b (String c _)) => Ascii.eqb a backtick && Ascii.eqb b backtick && Ascii.eqb c backtick
  | _ => false
  end.

Definition drop3 (s : string) : string :=
  match s with String _ (String _ (String _ r)) => r | _ => EmptyString end.

Definition orelse {A} (a b : option A) : option A := match a with Some _ => a | None => b end.

Definition prepend_group (c : ascii) (r : option string) : option string :=
  option_map (String c) r.

(** [(.*?)```]: the shortest text followed by three backticks. *)
Fixpoint match_close (s : string) : option string :=
  if fence3 s then Some EmptyString
  else match s with
       | EmptyString => None
       | String c s' => prepend_group c (match_close s')
       end.

(** [.*?\n(.*?)```] after the opening backticks, with backtracking over
    the newline the lazy [.*?] stops at. *)
Fixpoint match_open_rest (s : string) : option string :=
  match s with
  | EmptyString => None
  | String c s' =>
      orelse (if Ascii.eqb c newline then match_close s' else None) (match_open_rest s')
  end.

(** [re.search]: the leftmost start position that matches. *)
Fixpoint regex_search (s : string) : option string :=
  orelse (if fence3 s then match_open_rest (drop3 s) else None)
         (match s with EmptyString => None | String _ s' => regex_search s' end).

(** The text after the first newline of [s]. *)
Fixpoint after_newline (s : string) : option string :=
  match s with
  | EmptyString => None
  | String c s' => if Ascii.eqb c newline then Some s' else after_newline s'
  end.

(** The direct scan: first fence, first newline after it, up to the
    next fence. *)
Fixpoint first_fence (s : string) : option string :=
  if fence3 s then
    match after_newline (drop3 s) with Some r => match_close r | None => None end
  else match s with EmptyString => None | String _ s' => first_fence s' end.

(** [code = code_blocks.group(1) if code_blocks else code] (line 108). *)
Definition extract_code (code : string) : string :=
  match regex_search code with Some g => g | None => code end.

(** ** A reading of the regular expression with [str.partition]

    [s.partition(sep)] when [sep] occurs in [s]: the text before its
    first occurrence and the text after it. *)
Fixpoint str_partition (sep s : string) : option (string * string) :=
  match strip_prefix sep s with
  | Some r => Some (EmptyString, r)
  | None =>
      match s with
      | EmptyString => None
      | String c s' => option_map (fun '(a, b) => (String c a, b)) (str_partition sep s')
      end
  end.

Definition fence_text : string := String backtick (String backtick (String backtick EmptyString)).

(** What the specification asks of line 107: the text after the first
    three backticks, after the first newline that follows them, up to
    the next three backticks. *)
Definition fenced_block (s : string) : option string :=
  match str_partition fence_text s with
  | Some (_, t) =>
      match str_partition (String newline EmptyString) t with
      | Some (_, u) => option_map fst (str_partition fence_text u)
      | None => None
      end
  | None => None
  end.

(** ** The backtracking search is the direct scan *)

Lemma match_close_cons (c : ascii) (t : string) :
  match_close (String c t) =
  if fence3 (String c t) then Some EmptyString else prepend_group c (match_close t).
Proof. reflexivity. Qed.

Lemma regex_search_cons (c : ascii) (t : string) :
  regex_search (String c t) =
  orelse (if fence3 (String c t) then match_open_rest (drop3 (String c t)) else None)
         (regex_search t).
Proof. reflexivity. Qed.

Lemma first_fence_cons (c : ascii) (t : string) :
  first_fence (String c t) =
  if fence3 (String c t) then
    match after_newline (drop3 (String c t)) with Some r => match_close r | None => None end
  else first_fence t.
Proof. reflexivity. Qed.

(** [s] is a suffix of [t]. *)
Inductive suffix : string -> string -> Prop :=
| suffix_refl s : suffix s s
| suffix_cons s c t : suffix s t -> suffix s (String c t).

Lemma match_close_suffix (s t : string) :
  match_close t = None -> suffix s t -> match_close s = None.
Proof.
  intros Ht H. induction H as [|s c t H IH]; [exact Ht|].
  apply IH. rewrite match_close_cons in Ht. destruct (fence3 (String c t)); [discriminate|].
  unfold prepend_group in Ht. destruct (match_close t); [discriminate | reflexivity].
Qed.

(** The lazy [.*?] stops at the first newline: if the group cannot
    close after it, it cannot close after a later one either. *)
Lemma match_open_rest_first (s : string) :
  match_open_rest s = match after_newline s with Some r => match_close r | None => None end.
Proof.
  induction s as [|c s IH]; [reflexivity|]. simpl.
  destruct (Ascii.eqb c newline); simpl; [|exact IH].
  destruct (match_close s) as [g|] eqn:E; [reflexivity|]. rewrite IH.
  clear IH. induction s as [|d s IHs]; [reflexivity|]. simpl.
  destruct (Ascii.eqb d newline).
  - apply (match_close_suffix s (String d s)); [exact E | repeat constructor].
  - apply IHs. apply (match_close_suffix s (String d s)); [exact E | repeat constructor].
Qed.

Lemma match_open_rest_suffix (s t : string) :
  match_open_rest t = None -> suffix s t -> match_open_rest s = None.
Proof.
  intros Ht H. induction H as [|s c t H IH]; [exact Ht|].
  apply IH. simpl in Ht. destruct (if Ascii.eqb c newline then _ else None); [discriminate|].
  exact Ht.
Qed.

Lemma drop3_suffix (s : string) : suffix (drop3 s) s.
Proof. destruct s as [|a [|b [|c r]]]; repeat constructor. Qed.

(** No later start position matches when the text after the first
    fence has no newline followed by a fence. *)
Lemma first_fence_none (r : string) : match_open_rest r = None -> first_fence r = None.
Proof.
  induction r as [|c r IH]; intros H; [reflexivity|]. rewrite first_fence_cons.
  destruct (fence3 (String c r)).
  - rewrite <- match_open_rest_first.
    apply (match_open_rest_suffix _ (String c r) H), drop3_suffix.
  - apply IH, (match_open_rest_suffix _ (String c r) H). repeat constructor.
Qed.

Lemma drop3_cons2_suffix (b b' : ascii) (r : string) : suffix (drop3 (String b (String b' r))) r.
Proof. destruct r; repeat constructor. Qed.

Lemma drop3_cons1_suffix (b : ascii) (r : string) : suffix (drop3 (String b r)) r.
Proof. destruct r as [|d [|e r]]; repeat constructor. Qed.

Lemma first_fence_at_none (t r : string) :
  match_open_rest r = None -> suffix (drop3 t) r ->
  match after_newline (drop3 t) with Some r' => match_close r' | None => None end = None.
Proof. intros E H. rewrite <- match_open_rest_first. exact (match_open_rest_suffix _ _ E H). Qed.

(** The backtracking search of [re] and the direct scan agree on every
    text. *)
Theorem regex_search_first_fence (s : string) : regex_search s = first_fence s.
Proof.
  induction s as [|c s IH]; [reflexivity|]. rewrite regex_search_cons, first_fence_cons, IH.
  destruct (fence3 (String c s)) eqn:Hf; [|reflexivity].
  rewrite match_open_rest_first.
  destruct (match after_newline (drop3 (String c s)) with Some r => match_close r | None => None end)
    as [g|] eqn:E; [reflexivity|]. cbn [orelse].
  rewrite <- match_open_rest_first in E.
  destruct s as [|b [|b' r]]; try discriminate Hf. cbn [drop3] in E.
  (* the two start positions inside the opening fence, then the rest *)
  rewrite first_fence_cons. destruct (fence3 (String b (String b' r))).
  { exact (first_fence_at_none _ r E (drop3_cons2_suffix b b' r)). }
  rewrite first_fence_cons. destruct (fence3 (String b' r)).
  { exact (first_fence_at_none _ r E (drop3_cons1_suffix b' r)). }
  now apply first_fence_none.
Qed.

(** ** The direct scan is the [partition] reading *)

Lemma strip_fence (s : string) :
  strip_prefix fence_text s = if fence3 s then Some (drop3 s) else None.
Proof.
  destruct s as [|a [|b [|c r]]]; cbn [strip_prefix fence_text fence3 drop3];
    rewrite ?(Ascii.eqb_sym backtick a), ?(Ascii.eqb_sym backtick b), ?(Ascii.eqb_sym backtick c);
    [reflexivity | ..]; destruct (Ascii.eqb a backtick); try reflexivity;
    try (destruct (Ascii.eqb b backtick); try reflexivity);
    try (destruct (Ascii.eqb c backtick); reflexivity).
Qed.

Lemma str_partition_fence (c : ascii) (t : string) :
  str_partition fence_text (String c t) =
  if fence3 (String c t) then Some (EmptyString, drop3 (String c t))
  else option_map (fun '(a, b) => (String c a, b)) (str_partition fence_text t).
Proof. cbn [str_partition]. rewrite strip_fence. now destruct (fence3 (String c t)). Qed.

Lemma match_close_partition (s : string) :
  match_close s = option_map fst (str_partition fence_text s).
Proof.
  induction s as [|c t IH]; [reflexivity|]. rewrite match_close_cons, str_partition_fence.
  destruct (fence3 (String c t)); [reflexivity|]. unfold prepend_group. rewrite IH.
  now destruct (str_partition fence_text t) as [[a b]|].
Qed.

Lemma after_newline_partition (s : string) :
  after_newline s = option_map snd (str_partition (String newline EmptyString) s).
Proof.
  induction s as [|c t IH]; [reflexivity|]. cbn [after_newline str_partition strip_prefix].
  rewrite (Ascii.eqb_sym c newline). destruct (Ascii.eqb newline c); [reflexivity|]. rewrite IH.
  now destruct (str_partition _ t) as [[a b]|].
Qed.

Lemma first_fence_partition (s : string) :
  first_fence s =
  match option_map snd (str_partition fence_text s) with
  | Some t => match after_newline t with Some r => match_close r | None => None end
  | None => None
  end.
Proof.
  induction s as [|c t IH]; [reflexivity|]. rewrite first_fence_cons, str_partition_fence.
  destruct (fence3 (String c t)); [reflexivity|]. rewrite IH.
  now destruct (str_partition fence_text t) as [[a b]|].
Qed.

(** C11. Line 108 takes the first fenced block: [extract_code s] is
    the text after the first three backticks of [s], after the first
    newline that follows them, up to the next three backticks; the
    whole answer when there is no such block.  The reading with
    [str.partition] is independent of the regular-expression model, so
    a greedy group, a missing [re.DOTALL] or a search anchored at the
    start of the text would each make this theorem false. *)
Theorem extract_code_fenced_block (s : string) :
  extract_code s = match fenced_block s with Some g => g | None => s end.
Proof.
  unfold extract_code, fenced_block. rewrite regex_search_first_fence, first_fence_partition.
  destruct (str_partition fence_text s) as [[p t]|]; [|reflexivity]. cbn [option_map snd].
  rewrite after_newline_partition.
  destruct (str_partition (String newline EmptyString) t) as [[q u]|]; [|reflexivity].
  cbn [option_map snd]. now rewrite match_close_partition.
Qed.
