(* ===== verification/Client.v ===== *)
(** * Generation Client: [get_token] and [generate_function]

    [get_token] ([src/AutoPyFunc.py] lines 25-42) and
    [SidFunctionTransformer.generate_function] (lines 81-113).

    The client's state [client] holds what these functions read and
    write: the bearer token and the time it was fetched
    ([self.token], [self.token_time]), and the environment they talk to,
    written out as data so that the model computes: the readings of
    [time.time()] ([time_fn], indexed by how many readings were taken),
    the replies of the token endpoint and of the chat endpoint, indexed
    by how many requests were sent to each, and the chat requests sent
    so far.  Time is a rational number of seconds ([Q]); float rounding
    is not modelled.  Python's [compile] is the parameter [py_compiles]
    of the [Section]: the parser of the target language is external.
    [session] runs [generate_function] on a sequence of requests, as the
    pass does on its misses, to state that the token is refreshed in
    time. *)

From Stdlib Require Import String List ZArith QArith Bool Lia Lqa.
From S2P Require Import Prelude PyVal Repr Cache Fence.
Import ListNotations.

Local Open Scope string_scope.

(** [self.token]: what [get_token] returned. *)
Inductive token : Type :=
| TokStr (t : string)      (* [json['token']] *)
| TokErr (msg : string)    (* [{"error": msg}] *)
| TokNone.                 (* status 200 without a [token] field: falls off the end *)

(** The body of a token reply as [response.json()] sees it. *)
Inductive token_payload : Type :=
| TPNotJson (msg : string)              (* [response.json()] raises with [msg] *)
| TPJson (token_field : option string). (* the ['token'] member, if any *)

Inductive token_reply : Type :=
| TRRaise (msg : string)                        (* [requests.get] raises *)
| TRStatus (status : Z) (body : token_payload).

(** A chat reply: [choices[0].message.content] when that path exists and
    holds a string, [None] otherwise ([KeyError], [IndexError],
    [TypeError] in [re.search]). *)
Inductive chat_reply : Type :=
| CRRaise (msg : string)                        (* [client.post] raises or times out *)
| CRStatus (status : Z) (content : option string).

Record chat_request : Type := mk_request { auth_header : string; prompt : string }.

Record client : Type := mk_client {
  time_fn : nat -> Q;
  time_reads : nat;
  tok : token;
  token_time : Q;
  token_net : nat -> token_reply;
  token_calls : nat;
  chat_net : nat -> chat_reply;
  chat_sent : list chat_request
}.

(** [time.time()] *)
Definition time_time (c : client) : Q * client :=
  (time_fn c (time_reads c),
   mk_client (time_fn c) (S (time_reads c)) (tok c) (token_time c)
             (token_net c) (token_calls c) (chat_net c) (chat_sent c)).

Definition set_token (tk : token) (t : Q) (c : client) : client :=
  mk_client (time_fn c) (time_reads c) tk t (token_net c) (token_calls c) (chat_net c) (chat_sent c).

Definition send_chat (r : chat_request) (c : client) : client :=
  mk_client (time_fn c) (time_reads c) (tok c) (token_time c)
            (token_net c) (token_calls c) (chat_net c) (chat_sent c ++ [r]).

(** [get_token()] (lines 25-42): one request to the token endpoint. *)
Definition get_token (c : client) : client * token :=
  let reply := token_net c (token_calls c) in
  let c' := mk_client (time_fn c) (time_reads c) (tok c) (token_time c)
                      (token_net c) (S (token_calls c)) (chat_net c) (chat_sent c) in
  (c', match reply with
       | TRRaise msg => TokErr msg
       | TRStatus st body =>
           if Z.eqb st 200 then
             match body with
             | TPNotJson msg => TokErr msg
             | TPJson (Some t) => TokStr t
             | TPJson None => TokNone
             end
           else TokErr ("Received " ++ repr_int st ++ " HTTP status code")
       end).

(** [str(v)] inside an f-string. *)
Definition py_str (v : pyval) : string :=
  match v with PStr s => s | _ => py_repr v end.

(** [f"Bearer {self.token}"] *)
Definition token_text (t : token) : string :=
  match t with
  | TokStr s => s
  | TokErr msg => "{'error': " ++ repr_str msg ++ "}"
  | TokNone => "None"
  end.

(** The system prompt (line 95). *)
Definition prompt_text (name desc : pyval) : string :=
  "Below is a python function with the name " ++ py_str name ++
  " that does the following: " ++ py_str desc ++
  ". No code blocks/formatting are allowed. Assume any uncertainties.".

(** [time.time() - self.token_time > 600] *)
Definition token_expired (now fetched : Q) : bool := negb (Qle_bool (now - fetched) 600).

(** The text returned on a non-200 status (line 104). *)
Definition response_404 : string := "Response 404".

(** [if time.time() - self.token_time > 600: self.token = get_token();
    self.token_time = time.time()] (lines 83-85). *)
Definition refresh_token (c : client) : client :=
  let '(now, c1) := time_time c in
  if token_expired now (token_time c1) then
    let '(c', tk) := get_token c1 in
    let '(t, c'') := time_time c' in
    set_token tk t c''
  else c1.

Section Generate.
Variable py_compiles : string -> bool.

(** [generate_function(function_name, description)] (lines 81-113);
    returns the client, the events logged, and the text. *)
Definition generate_function (name desc : pyval) (c : client)
  : client * list log_event * string :=
  let c2 := refresh_token c in
  let req := mk_request ("Bearer " ++ token_text (tok c2)) (prompt_text name desc) in
  let reply := chat_net c2 (length (chat_sent c2)) in
  let c3 := send_chat req c2 in
  match reply with
  | CRRaise _ => (c3, [LGenFailed], EmptyString)
  | CRStatus st content =>
      if negb (Z.eqb st 200) then (c3, [], response_404)
      else match content with
           | None => (c3, [LGenFailed], EmptyString)
           | Some text =>
               let code := extract_code text in
               if py_compiles code then (c3, [], code) else (c3, [LGenFailed], EmptyString)
           end
  end.
(** The text a call returns for a reply: the branches of lines 103-113. *)
Definition reply_text (r : chat_reply) : string :=
  match r with
  | CRRaise _ => EmptyString
  | CRStatus st content =>
      if negb (Z.eqb st 200) then response_404
      else match content with
           | None => EmptyString
           | Some text => if py_compiles (extract_code text) then extract_code text else EmptyString
           end
  end.
End Generate.

(** ** Properties of one call *)

(** ** The token refresh *)

Lemma refresh_token_token_calls (c : client) :
  token_calls (refresh_token c) =
  (token_calls c + if token_expired (time_fn c (time_reads c)) (token_time c) then 1 else 0)%nat.
Proof.
  unfold refresh_token. simpl. destruct (token_expired _ _); simpl; [now rewrite Nat.add_1_r|].
  now rewrite Nat.add_0_r.
Qed.

(** A token that has not expired is kept: one reading of the clock. *)
Lemma refresh_token_fresh (c : client) :
  token_expired (time_fn c (time_reads c)) (token_time c) = false ->
  refresh_token c = snd (time_time c).
Proof. intros H. unfold refresh_token. simpl. now rewrite H. Qed.

Lemma refresh_token_time_fn (c : client) : time_fn (refresh_token c) = time_fn c.
Proof. unfold refresh_token. simpl. destruct (token_expired _ _); reflexivity. Qed.

Section GenerateProps.
Variable py_compiles : string -> bool.

Local Abbreviation gen := (generate_function py_compiles).

Lemma refresh_token_chat_sent (c : client) : chat_sent (refresh_token c) = chat_sent c.
Proof. unfold refresh_token. simpl. destruct (token_expired _ _); reflexivity. Qed.

Lemma refresh_token_chat_net (c : client) : chat_net (refresh_token c) = chat_net c.
Proof. unfold refresh_token. simpl. destruct (token_expired _ _); reflexivity. Qed.

(** The call is: refresh, send one request, read the reply. *)
Lemma generate_function_unfold (name desc : pyval) (c : client) :
  gen name desc c =
  let c2 := refresh_token c in
  let c3 := send_chat (mk_request ("Bearer " ++ token_text (tok c2)) (prompt_text name desc)) c2 in
  match chat_net c (length (chat_sent c)) with
  | CRRaise _ => (c3, [LGenFailed], EmptyString)
  | CRStatus st content =>
      if negb (Z.eqb st 200) then (c3, [], response_404)
      else match content with
           | None => (c3, [LGenFailed], EmptyString)
           | Some text =>
               if py_compiles (extract_code text) then (c3, [], extract_code text)
               else (c3, [LGenFailed], EmptyString)
           end
  end.
Proof.
  unfold generate_function. now rewrite refresh_token_chat_sent, refresh_token_chat_net.
Qed.

(** The text is determined by the reply to the request sent. *)
Lemma generate_function_text (name desc : pyval) (c : client) :
  snd (gen name desc c) = reply_text py_compiles (chat_net c (length (chat_sent c))).
Proof.
  rewrite generate_function_unfold. cbv zeta.
  destruct (chat_net c (length (chat_sent c))) as [?|st [text|]]; cbn [reply_text];
    [reflexivity | destruct (negb (st =? 200)%Z); [reflexivity|] | now destruct (negb (st =? 200)%Z)].
  now destruct (py_compiles (extract_code text)).
Qed.

(** What a call does to the client: refresh the token, send one
    request; the rest of the call only computes the result. *)
Lemma generate_function_client (name desc : pyval) (c : client) :
  fst (fst (gen name desc c)) =
  send_chat (mk_request ("Bearer " ++ token_text (tok (refresh_token c))) (prompt_text name desc))
            (refresh_token c).
Proof.
  rewrite generate_function_unfold. cbv zeta.
  destruct (chat_net c (length (chat_sent c))) as [?|st [text|]];
    [| destruct (negb (st =? 200)%Z); [|destruct (py_compiles (extract_code text))]
     | destruct (negb (st =? 200)%Z)]; reflexivity.
Qed.

Lemma generate_function_chat_net (name desc : pyval) (c : client) :
  chat_net (fst (fst (gen name desc c))) = chat_net c.
Proof. rewrite generate_function_client. cbn [send_chat chat_net]. apply refresh_token_chat_net. Qed.

(** One call, one request to the chat endpoint. *)
Lemma generate_function_requests (name desc : pyval) (c : client) :
  length (chat_sent (fst (fst (gen name desc c)))) = S (length (chat_sent c)).
Proof.
  rewrite generate_function_client. cbn [send_chat chat_sent].
  rewrite length_app, refresh_token_chat_sent. simpl. lia.
Qed.

(** C16. Every call sends exactly one request to the chat endpoint, with
    the bearer text of the (possibly refreshed) token and the prompt
    naming the function and its description. *)
Theorem generate_function_one_request (name desc : pyval) (c : client) :
  let '(c', _, _) := gen name desc c in
  chat_sent c' = (chat_sent c ++
    [mk_request ("Bearer " ++ token_text (tok (refresh_token c))) (prompt_text name desc)])%list.
Proof.
  pose proof (generate_function_client name desc c) as H.
  destruct (gen name desc c) as [[c' evs] r]. cbn [fst] in H. subst c'.
  cbn [send_chat chat_sent]. now rewrite refresh_token_chat_sent.
Qed.

(** C15. The result is the empty text, the text ["Response 404"], or a text
    [compile] accepts. *)
Theorem generate_function_result (name desc : pyval) (c : client) :
  let '(_, _, r) := gen name desc c in
  r = EmptyString \/ r = response_404 \/ py_compiles r = true.
Proof.
  rewrite generate_function_unfold. cbv zeta.
  destruct (chat_net c (length (chat_sent c))) as [m|st [text|]]; [now left| |];
    destruct (negb (st =? 200)%Z); auto.
  destruct (py_compiles (extract_code text)) eqn:E; auto.
Qed.

(** C13. A reply with a status other than 200 gives the text
    ["Response 404"], whatever the status, and logs nothing. *)
Theorem generate_function_non200 (name desc : pyval) (c : client) (st : Z) (content : option string) :
  chat_net c (length (chat_sent c)) = CRStatus st content -> st <> 200%Z ->
  let '(_, evs, r) := gen name desc c in r = response_404 /\ evs = [].
Proof.
  intros Hr Hst. rewrite generate_function_unfold, Hr. cbv zeta.
  apply Z.eqb_neq in Hst. now rewrite Hst.
Qed.

(** C14. A request that raises (network error, timeout) gives the empty
    text and one error line. *)
Theorem generate_function_raise (name desc : pyval) (c : client) (msg : string) :
  chat_net c (length (chat_sent c)) = CRRaise msg ->
  let '(_, evs, r) := gen name desc c in r = EmptyString /\ evs = [LGenFailed].
Proof. intros Hr. rewrite generate_function_unfold, Hr. now cbv zeta. Qed.

(** C12. A 200 reply whose text, after taking the first fenced block, is
    accepted by [compile] gives that text. *)
Theorem generate_function_success (name desc : pyval) (c : client) (text : string) :
  chat_net c (length (chat_sent c)) = CRStatus 200 (Some text) ->
  py_compiles (extract_code text) = true ->
  let '(_, evs, r) := gen name desc c in
  r = match first_fence text with Some g => g | None => text end /\ evs = [].
Proof.
  intros Hr Hc. rewrite generate_function_unfold, Hr. cbv zeta. simpl. rewrite Hc.
  unfold extract_code. now rewrite regex_search_first_fence.
Qed.

(** C17. The token endpoint is asked again exactly when the token is more
    than 600 seconds old at the first [time.time()] of the call. *)
Theorem generate_function_token_calls (name desc : pyval) (c : client) :
  let '(c', _, _) := gen name desc c in
  token_calls c' = (token_calls c +
    if token_expired (time_fn c (time_reads c)) (token_time c) then 1 else 0)%nat.
Proof.
  pose proof (generate_function_client name desc c) as H.
  destruct (gen name desc c) as [[c' evs] r]. cbn [fst] in H. subst c'.
  exact (refresh_token_token_calls c).
Qed.

End GenerateProps.

(** ** A session of calls: the token is refreshed in time *)

Section Session.
Variable py_compiles : string -> bool.

Local Abbreviation gen := (generate_function py_compiles).

(** The client after the calls [reqs 0], ..., [reqs (n-1)] of
    [generate_function], one marker miss each. *)
Fixpoint session (reqs : nat -> pyval * pyval) (n : nat) (c : client) : client :=
  match n with
  | O => c
  | S n' => fst (fst (gen (fst (reqs n')) (snd (reqs n')) (session reqs n' c)))
  end.

Lemma session_S (reqs : nat -> pyval * pyval) (n : nat) (c : client) :
  session reqs (S n) c =
  send_chat (mk_request ("Bearer " ++ token_text (tok (refresh_token (session reqs n c))))
                        (prompt_text (fst (reqs n)) (snd (reqs n))))
            (refresh_token (session reqs n c)).
Proof. apply generate_function_client. Qed.

Lemma session_time_fn (reqs : nat -> pyval * pyval) (n : nat) (c : client) :
  time_fn (session reqs n c) = time_fn c.
Proof.
  induction n as [|n IH]; [reflexivity|]. rewrite session_S. cbn [send_chat time_fn].
  now rewrite refresh_token_time_fn.
Qed.

Lemma session_token_calls (reqs : nat -> pyval * pyval) (n : nat) (c : client) :
  token_calls (session reqs (S n) c) =
  (token_calls (session reqs n c) +
   if token_expired (time_fn c (time_reads (session reqs n c))) (token_time (session reqs n c))
   then 1 else 0)%nat.
Proof.
  rewrite session_S. cbn [send_chat token_calls]. rewrite refresh_token_token_calls.
  now rewrite session_time_fn.
Qed.

Lemma session_token_calls_mono (reqs : nat -> pyval * pyval) (n : nat) (c : client) :
  (token_calls c <= token_calls (session reqs n c))%nat.
Proof. induction n as [|n IH]; [reflexivity|]. rewrite session_token_calls. lia. Qed.

(** As long as no token is fetched, each call reads the clock once and
    the token keeps its time. *)
Lemma session_quiet (reqs : nat -> pyval * pyval) (n : nat) (c : client) :
  token_calls (session reqs n c) = token_calls c ->
  time_reads (session reqs n c) = (time_reads c + n)%nat /\
  token_time (session reqs n c) = token_time c.
Proof.
  induction n as [|n IH]; intros Hq; [cbn; split; [lia | reflexivity]|].
  pose proof (session_token_calls_mono reqs n c) as Hm.
  rewrite session_token_calls in Hq.
  destruct (token_expired (time_fn c (time_reads (session reqs n c))) (token_time (session reqs n c)))
    eqn:He; [lia|].
  destruct IH as [Hr Ht]; [lia|].
  rewrite session_S. cbn [send_chat time_reads token_time].
  rewrite refresh_token_fresh by (rewrite session_time_fn; exact He).
  cbn. split; [lia | exact Ht].
Qed.
End Session.

(** C18. A refresh whose token request gets a status other than 200 stores
    the error dictionary as the token and the time of the attempt as its
    time: for the next 600 seconds every request carries
    ["Bearer {'error': ...}"] and no new token is asked for. *)
Theorem refresh_token_failed (c : client) (st : Z) (body : token_payload) :
  token_expired (time_fn c (time_reads c)) (token_time c) = true ->
  token_net c (token_calls c) = TRStatus st body -> st <> 200%Z ->
  tok (refresh_token c) = TokErr ("Received " ++ repr_int st ++ " HTTP status code") /\
  token_time (refresh_token c) = time_fn c (S (time_reads c)).
Proof.
  intros He Hr Hst. unfold refresh_token. simpl. rewrite He. simpl. rewrite Hr.
  apply Z.eqb_neq in Hst. now rewrite Hst.
Qed.

(** ** Witnesses *)

(** C29. Liveness of the token refresh: with a clock that never goes
    back and that passes [token_time + 600] at its [i]-th reading, a
    session of calls fetches a new token within [i - time_reads + 1]
    calls, whatever the functions asked for. *)
Theorem token_refresh_eventually (py_compiles : string -> bool) (reqs : nat -> pyval * pyval)
    (c : client) (i : nat) :
  (forall j k, (j <= k)%nat -> (time_fn c j <= time_fn c k)%Q) ->
  (token_time c + 600 < time_fn c i)%Q ->
  exists n, (n <= S (i - time_reads c))%nat /\
            (token_calls c < token_calls (session py_compiles reqs n c))%nat.
Proof.
  intros Hmono Hlate. set (n := (i - time_reads c)%nat).
  pose proof (session_token_calls_mono py_compiles reqs n c) as Hm.
  destruct (Nat.eq_dec (token_calls (session py_compiles reqs n c)) (token_calls c)) as [Hq|Hq];
    [|exists n; split; lia].
  exists (S n). split; [lia|].
  destruct (session_quiet py_compiles reqs n c Hq) as [Hr Ht].
  rewrite session_token_calls, Hr, Ht.
  assert (He : token_expired (time_fn c (time_reads c + n)) (token_time c) = true).
  { unfold token_expired. apply negb_true_iff. apply not_true_is_false. rewrite Qle_bool_iff.
    assert (Hi : (time_fn c i <= time_fn c (time_reads c + n))%Q) by (apply Hmono; lia). lra. }
  rewrite He. lia.
Qed.

Module Witnesses.
Local Open Scope string_scope.
Local Open Scope list_scope.

Definition fenced : string :=
  "Here:" ++ String newline ("```python" ++ String newline ("x = 1" ++ String newline "```")).

Definition cl (st : Z) (answer : chat_reply) : client :=
  mk_client (fun n => inject_Z (Z.of_nat n * 700)) 1 TokNone 0
            (fun _ => TRStatus st (TPJson (Some "tok"))) 0 (fun _ => answer) [].

Lemma generate_function_success_witness :
  chat_net (cl 200 (CRStatus 200 (Some fenced))) 0 = CRStatus 200 (Some fenced) /\
  (fun _ => true) (extract_code fenced) = true /\
  let '(_, evs, r) := generate_function (fun _ => true) (PStr "f") (PStr "d")
                        (cl 200 (CRStatus 200 (Some fenced))) in
  r = match first_fence fenced with Some g => g | None => fenced end /\ evs = [].
Proof.
  split; [reflexivity | split; [reflexivity |]].
  exact (generate_function_success (fun _ => true) (PStr "f") (PStr "d") (cl 200 (CRStatus 200 (Some fenced))) fenced eq_refl eq_refl).
Defined.

Lemma generate_function_non200_witness :
  chat_net (cl 200 (CRStatus 503 None)) 0 = CRStatus 503 None /\ 503%Z <> 200%Z /\
  let '(_, evs, r) := generate_function (fun _ => true) (PStr "f") (PStr "d")
                        (cl 200 (CRStatus 503 None)) in r = response_404 /\ evs = [].
Proof.
  split; [reflexivity | split; [discriminate |]].
  exact (generate_function_non200 (fun _ => true) (PStr "f") (PStr "d") (cl 200 (CRStatus 503 None)) 503 None eq_refl
           ltac:(discriminate)).
Defined.

Lemma generate_function_raise_witness :
  chat_net (cl 200 (CRRaise "timeout")) 0 = CRRaise "timeout" /\
  let '(_, evs, r) := generate_function (fun _ => true) (PStr "f") (PStr "d")
                        (cl 200 (CRRaise "timeout")) in r = EmptyString /\ evs = [LGenFailed].
Proof.
  split; [reflexivity |].
  exact (generate_function_raise (fun _ => true) (PStr "f") (PStr "d") (cl 200 (CRRaise "timeout")) "timeout" eq_refl).
Defined.

Lemma refresh_token_failed_witness :
  token_expired (time_fn (cl 401 (CRRaise "")) 1) 0 = true /\
  token_net (cl 401 (CRRaise "")) 0 = TRStatus 401 (TPJson (Some "tok")) /\ 401%Z <> 200%Z /\
  tok (refresh_token (cl 401 (CRRaise ""))) = TokErr ("Received " ++ repr_int 401 ++ " HTTP status code") /\
  token_time (refresh_token (cl 401 (CRRaise ""))) = time_fn (cl 401 (CRRaise "")) 2.
Proof.
  split; [reflexivity | split; [reflexivity | split; [discriminate |]]].
  exact (refresh_token_failed (cl 401 (CRRaise "")) 401 (TPJson (Some "tok")) eq_refl eq_refl
           ltac:(discriminate)).
Defined.
Definition req0 (_ : nat) : pyval * pyval := (PStr "f", PStr "d").

Lemma cl_clock_mono :
  forall j k, (j <= k)%nat -> (time_fn (cl 200 (CRRaise "")) j <= time_fn (cl 200 (CRRaise "")) k)%Q.
Proof.
  intros j k H. cbn [time_fn cl]. rewrite <- Zle_Qle. apply Z.mul_le_mono_nonneg_r; lia.
Qed.

Lemma token_refresh_eventually_witness :
  (forall j k, (j <= k)%nat -> (time_fn (cl 200 (CRRaise "")) j <= time_fn (cl 200 (CRRaise "")) k)%Q) /\
  (token_time (cl 200 (CRRaise "")) + 600 < time_fn (cl 200 (CRRaise "")) 1)%Q /\
  exists n, (n <= S (1 - time_reads (cl 200 (CRRaise ""))))%nat /\
            (token_calls (cl 200 (CRRaise "")) <
             token_calls (session (fun _ => true) req0 n (cl 200 (CRRaise ""))))%nat.
Proof.
  assert (Hl : (token_time (cl 200 (CRRaise "")) + 600 < time_fn (cl 200 (CRRaise "")) 1)%Q)
    by reflexivity.
  split; [exact cl_clock_mono | split; [exact Hl |]].
  exact (token_refresh_eventually (fun _ => true) req0 (cl 200 (CRRaise "")) 1 cl_clock_mono Hl).
Defined.
End Witnesses.
