(* ===== verification/Driver.v ===== *)
(** * Compiler Driver: [sid_compiler], [interactive_mode], [__main__]

    [SidFunctionTransformer.__init__] ([src/AutoPyFunc.py] lines
    45-49), [sid_compiler] (lines 135-153), [interactive_mode] (lines
    155-158) and the argument handling of the [__main__] block (lines
    160-169).

    The [world] is what the driver touches: the files it reads and
    writes, the cache file, the client's environment, the log and
    standard output.  [ast.parse] and [astunparse.unparse] are the
    parameters [py_parse] and [unparse] of the [Section] (a library the
    source only calls); [py_parse] returns [None] where [ast.parse]
    raises [SyntaxError]. *)

From Stdlib Require Import String List ZArith QArith Bool Lia.
From S2P Require Import Prelude PyVal PyDict Repr Cache PyAst Transformer Fence Client.
Import ListNotations.

Local Open Scope string_scope.

Record world : Type := mk_world {
  files : string -> option string;   (* [open(path).read()]; [None]: it raises *)
  writable : string -> bool;         (* [open(path, 'w')] succeeds *)
  written : list (string * string);  (* files written, in order *)
  wfs : fsys;                        (* [function_cache.json] *)
  wclient : client;
  wlog : list log_event;
  stdout : list string
}.

(** [SidFunctionTransformer()] (lines 45-49): empty pool, cache loaded,
    a token fetched, its time taken. *)
Definition init_transformer (fs : fsys) (c : client) : tstate client :=
  let '(cache0, lg) := load_cache fs in
  let '(c1, tk) := get_token c in
  let '(t, c2) := time_time c1 in
  mk_tstate [] cache0 fs lg (set_token tk t c2).

Definition dnl : string := String newline (String newline EmptyString).

(** ['\n\n'.join(transformer.function_codes) + astunparse.unparse(module)]
    (line 147). *)
Definition output_text (unparse : pymodule -> string) (codes : list string) (m : pymodule) : string :=
  str_join dnl codes ++ unparse m.

Definition after_pass (w : world) (t : tstate client) : world :=
  mk_world (files w) (writable w) (written w) (tfs t) (gstate t) (wlog w ++ tlog t) (stdout w).

Definition add_wlog (ev : log_event) (w : world) : world :=
  mk_world (files w) (writable w) (written w) (wfs w) (wclient w) (wlog w ++ [ev]) (stdout w).

Definition write_file (path text : string) (w : world) : world :=
  mk_world (files w) (writable w) (written w ++ [(path, text)]) (wfs w) (wclient w) (wlog w) (stdout w).

Section Driver.
Variable py_compiles : string -> bool.
Variable py_parse : string -> option pymodule.
Variable unparse : pymodule -> string.

Local Abbreviation gen := (generate_function py_compiles).

(** [sid_compiler(input_path, output_path)] (lines 135-153).  A read
    or write failure is logged and the run returns; a [SyntaxError]
    of [ast.parse] and an [AttributeError] of the pass are not caught.
    [transformer.visit(module)] rewrites [module] in place, and the
    root is an [ast.Module], which [visit] returns itself: unparsing
    [module] is unparsing the returned tree. *)
Definition sid_compiler (input_path output_path : string) (w : world) : world * res unit :=
  match files w input_path with
  | None => (add_wlog LReadFailed w, Ok tt)
  | Some code =>
      match py_parse code with
      | None => (w, Exc SyntaxError)
      | Some m =>
          match visit_module gen m (init_transformer (wfs w) (wclient w)) with
          | (t, Exc e) => (after_pass w t, Exc e)
          | (t, Ok m') =>
              let new_code := output_text unparse (function_codes t) m' in
              let w1 := after_pass w t in
              if writable w1 output_path then (write_file output_path new_code w1, Ok tt)
              else (add_wlog LWriteFailed w1, Ok tt)
          end
      end
  end.

(** [interactive_mode()] (lines 155-158) for the line [description]
    read from standard input: a fresh transformer (it loads the cache
    and fetches a token), one call of [generate_function], the result
    printed.  The cache is neither consulted nor saved. *)
Definition interactive_mode (description : string) (w : world) : world :=
  let t := init_transformer (wfs w) (wclient w) in
  let '(c', evs, code) :=
    gen (PStr (space_to_underscore description)) (PStr description) (gstate t) in
  mk_world (files w) (writable w) (written w) (wfs w) c' (wlog w ++ tlog t ++ evs)
           (stdout w ++ ["Generated code:" ++ dnl ++ code ++ String newline EmptyString]).
End Driver.

(** ** Command line *)

(** What the [__main__] block runs for the positional arguments
    (lines 161-169).  Options ([-h] and the like) are not modelled. *)
Inductive mode : Type :=
| Batch (input_path output_path : string)
| Interactive
| UsageError.   (* argparse: more than two positional arguments *)

(** [if args.input_path and args.output_path]: both present and
    non-empty; anything else, one argument included, is interactive. *)
Definition main_mode (args : list string) : mode :=
  match args with
  | [] => Interactive
  | [_] => Interactive
  | [i; o] => if (String.eqb i "" || String.eqb o "")%bool then Interactive else Batch i o
  | _ => UsageError
  end.

(** ** The cache file follows the cache through a pass *)

(** The file on disk loads back to the cache in memory. *)
Definition synced {G} (t : tstate G) : Prop :=
  cache_writable (tfs t) = true /\ cache_inv (function_cache t) /\
  fst (load_cache (tfs t)) = function_cache t.

Lemma save_cache_writable (c : cache) (fs : fsys) :
  cache_writable fs = true -> cache_writable (fst (save_cache c fs)) = true.
Proof. intros H. unfold save_cache. rewrite H. destruct (encode_entries c); reflexivity. Qed.

Section Synced.
Context {G : Type} (generate : pyval -> pyval -> G -> G * list log_event * string).

Lemma site_step_synced (st : site) (t : tstate G) :
  synced t -> synced (site_step generate st t).
Proof.
  intros (Hw & Hinv & Hl).
  assert (Hinv' := run_sites_inv generate [st] t Hinv). simpl in Hinv'.
  destruct (is_marker_site st) eqn:Hm; [|destruct st; try discriminate; split; auto].
  destruct (cache_lookup (function_cache t) (site_key st)) as [v|] eqn:Hv.
  - rewrite (site_step_hit generate st t v Hm Hv). split; auto.
  - pose proof (site_step_miss generate st t Hm Hv) as E.
    destruct (generate _ _ _) as [[g' gl] code]. cbv zeta in E.
    destruct (save_cache (dict_set key_eqb (site_key st) code (function_cache t)) (tfs t))
      as [fs' sl] eqn:Es.
    rewrite E in Hinv' |- *. unfold synced. cbn [function_cache tfs Transformer.tfs Transformer.function_cache] in *.
    assert (Hfs : fs' = fst (save_cache (dict_set key_eqb (site_key st) code (function_cache t)) (tfs t)))
      by now rewrite Es.
    split; [|split; [exact Hinv'|]].
    + rewrite Hfs. now apply save_cache_writable.
    + destruct Hinv' as [Hp Hwf]. rewrite Hfs. now rewrite load_save_id.
Qed.

Lemma run_sites_synced (l : list site) (t : tstate G) : synced t -> synced (run_sites generate l t).
Proof.
  revert t. induction l as [|st l IH]; intros t H; [exact H|].
  rewrite run_sites_cons. apply IH, site_step_synced, H.
Qed.
End Synced.

Lemma init_transformer_synced (fs : fsys) (c : client) :
  cache_writable fs = true -> cache_inv (fst (load_cache fs)) ->
  synced (init_transformer fs c).
Proof.
  intros Hw Hinv. unfold init_transformer, synced.
  destruct (load_cache fs) as [c0 lg] eqn:El. simpl in *. split; auto.
  now rewrite El.
Qed.

Lemma init_transformer_fields (fs : fsys) (c : client) :
  function_codes (init_transformer fs c) = [] /\ tfs (init_transformer fs c) = fs /\
  function_cache (init_transformer fs c) = fst (load_cache fs) /\
  chat_sent (gstate (init_transformer fs c)) = chat_sent c.
Proof. unfold init_transformer. destruct (load_cache fs). simpl. auto. Qed.

Lemma init_transformer_chat_net (fs : fsys) (c : client) :
  chat_net (gstate (init_transformer fs c)) = chat_net c.
Proof. unfold init_transformer. destruct (load_cache fs). reflexivity. Qed.

(** ** Batch runs *)

Section Batch.
Variable py_compiles : string -> bool.
Variable py_parse : string -> option pymodule.
Variable unparse : pymodule -> string.

Local Abbreviation gen := (generate_function py_compiles).
Local Abbreviation compile := (sid_compiler py_compiles py_parse unparse).

(** A run on a readable file that parses, whose markers are well
    formed, with a writable output: one pass, then the output is the
    pooled texts followed by the rewritten module. *)
Lemma sid_compiler_ok (input output code : string) (m : pymodule) (l : list site) (w : world) :
  files w input = Some code -> py_parse code = Some m -> sites_module m = Some l ->
  writable w output = true ->
  compile input output w =
    (let t := run_sites gen l (init_transformer (wfs w) (wclient w)) in
     write_file output (output_text unparse (function_codes t) (rewrite_module m)) (after_pass w t),
     Ok tt).
Proof.
  intros Hf Hp Hl Hw. unfold sid_compiler. rewrite Hf, Hp, (proj1 (visit_module_refines_all _ m) l _ Hl).
  cbv zeta. simpl. now rewrite Hw.
Qed.

(** A run from no cache file against a chat endpoint whose every reply
    yields the text [v]: the output is [v] once per marker site, then
    the rewritten module, and the cache file maps every marker key to
    [v]. *)
Lemma sid_compiler_uniform (v input output code : string) (m : pymodule) (l : list site) (w : world) :
  files w input = Some code -> py_parse code = Some m -> sites_module m = Some l ->
  writable w output = true -> cache_file (wfs w) = None -> cache_writable (wfs w) = true ->
  (forall n, reply_text py_compiles (chat_net (wclient w) n) = v) ->
  let (w', r) := compile input output w in
  r = Ok tt /\
  written w' = (written w ++
    [(output, (str_join dnl (repeat v (length (marker_keys l))) ++ unparse (rewrite_module m))%string)])%list /\
  (forall k, In k (marker_keys l) -> cache_lookup (fst (load_cache (wfs w'))) k = Some v).
Proof.
  intros Hf Hp Hl Hw Hnone Hcw Hv.
  rewrite (sid_compiler_ok input output code m l w Hf Hp Hl Hw). cbv zeta.
  destruct (init_transformer_fields (wfs w) (wclient w)) as (Hc0 & _ & Hca & _).
  set (t0 := init_transformer (wfs w) (wclient w)) in *.
  set (inv := fun c : client => chat_net c = chat_net (wclient w)).
  assert (Hinv : forall n d g, inv g -> inv (fst (fst (gen n d g))))
    by (intros n d g Hg; unfold inv; now rewrite generate_function_chat_net).
  assert (Htext : forall n d g, inv g -> snd (gen n d g) = v)
    by (intros n d g Hg; rewrite generate_function_text; unfold inv in Hg; now rewrite Hg).
  assert (Hload : load_cache (wfs w) = ([], [])) by (unfold load_cache; now rewrite Hnone).
  assert (Hi0 : inv (gstate t0)) by apply init_transformer_chat_net.
  assert (Hv0 : all_values v (function_cache t0)) by (rewrite Hca, Hload; constructor).
  assert (Hs0 : synced t0)
    by (apply init_transformer_synced; [exact Hcw | rewrite Hload; split; [constructor | exact I]]).
  destruct (run_sites_synced gen l t0 Hs0) as (_ & _ & Hsync).
  destruct (run_sites_values gen inv v Hinv Htext l t0 Hi0 Hv0) as [_ Hvals].
  split; [reflexivity | split].
  - cbn [write_file written after_pass]. unfold output_text.
    rewrite (run_sites_const_codes gen inv v Hinv Htext l t0 Hi0 Hv0), Hc0. reflexivity.
  - intros k Hk. cbn [write_file wfs after_pass]. rewrite Hsync.
    destruct (run_sites_covers gen l t0 k Hk) as [w' Hw'].
    rewrite Hw'. f_equal. exact (dict_get_Forall key_eqb (fun x => x = v) k _ w' Hvals Hw').
Qed.

(** C3. End to end, the example of the specification for any program:
    from no cache file, with a backend that answers every request with
    status 200 and a text whose extracted code [compile] accepts, the
    output file holds that code once per marker site, joined by blank
    lines, then the rewritten module; the cache file maps every marker
    key to that code. *)
Theorem sid_compiler_constant_backend (input output code text : string) (m : pymodule)
    (l : list site) (w : world) :
  files w input = Some code -> py_parse code = Some m -> sites_module m = Some l ->
  writable w output = true -> cache_file (wfs w) = None -> cache_writable (wfs w) = true ->
  (forall n, chat_net (wclient w) n = CRStatus 200 (Some text)) ->
  py_compiles (extract_code text) = true ->
  let (w', r) := compile input output w in
  r = Ok tt /\
  written w' = (written w ++
    [(output, (str_join dnl (repeat (extract_code text) (length (marker_keys l))) ++
               unparse (rewrite_module m))%string)])%list /\
  (forall k, In k (marker_keys l) ->
             cache_lookup (fst (load_cache (wfs w'))) k = Some (extract_code text)).
Proof.
  intros Hf Hp Hl Hw Hnone Hcw Hnet Hc.
  apply (sid_compiler_uniform (extract_code text) input output code m l w Hf Hp Hl Hw Hnone Hcw).
  intros n. rewrite Hnet. cbn. now rewrite Hc.
Qed.


(** C2. Running the compiler a second time on the same input, with the
    cache file the first run left: no request reaches the chat
    endpoint, the cache file is not rewritten, and the same text is
    written to the output.  The first run must start from a writable
    cache file whose content loads to a cache of pairs. *)
Theorem sid_compiler_rerun (input output code : string) (m : pymodule) (l : list site)
    (w w2 : world) :
  files w input = Some code -> py_parse code = Some m -> sites_module m = Some l ->
  writable w output = true ->
  cache_writable (wfs w) = true -> cache_inv (fst (load_cache (wfs w))) ->
  files w2 input = Some code -> writable w2 output = true ->
  wfs w2 = wfs (fst (compile input output w)) ->
  let (w1, r1) := compile input output w in
  let (w3, r2) := compile input output w2 in
  r1 = Ok tt /\ r2 = Ok tt /\
  chat_sent (wclient w3) = chat_sent (wclient w2) /\ wfs w3 = wfs w2 /\
  exists text, written w1 = (written w ++ [(output, text)])%list /\
               written w3 = (written w2 ++ [(output, text)])%list.
Proof.
  intros Hf Hp Hl Ho Hcw Hci Hf2 Ho2 Hfs.
  rewrite (sid_compiler_ok input output code m l w2 Hf2 Hp Hl Ho2).
  rewrite (sid_compiler_ok input output code m l w Hf Hp Hl Ho) in Hfs |- *.
  cbv zeta in *. simpl in Hfs.
  set (t0 := init_transformer (wfs w) (wclient w)) in *.
  set (t2 := init_transformer (wfs w2) (wclient w2)).
  destruct (init_transformer_fields (wfs w) (wclient w)) as (Hc0 & _).
  destruct (init_transformer_fields (wfs w2) (wclient w2)) as (Hc2 & Hfs2 & Hca2 & Hch2).
  destruct (run_sites_synced gen l t0 (init_transformer_synced _ _ Hcw Hci)) as (_ & _ & Hsync).
  assert (Hcache : function_cache t2 = function_cache (run_sites gen l t0)).
  { unfold t2. rewrite Hca2, Hfs. exact Hsync. }
  destruct (run_sites_rerun gen l t0 t2 Hcache) as (Hg & _ & Htfs & added & Ha1 & Ha2).
  simpl. repeat split; auto.
  - rewrite Hg. exact Hch2.
  - rewrite Htfs. exact Hfs2.
  - exists (output_text unparse added (rewrite_module m)). split; f_equal.
    + rewrite Ha1. unfold t0. now rewrite Hc0.
    + rewrite Ha2. unfold t2. now rewrite Hc2.
Qed.
(** C28. The pass composed with the client: a run sends exactly one
    chat request per marker key that misses the cache loaded at
    start, one for each [==]-class of new keys. *)
Theorem sid_compiler_requests (input output code : string) (m : pymodule) (l : list site) (w : world) :
  files w input = Some code -> py_parse code = Some m -> sites_module m = Some l ->
  writable w output = true ->
  length (chat_sent (wclient (fst (compile input output w)))) =
  (length (chat_sent (wclient w)) +
   length (misses (map fst (fst (load_cache (wfs w)))) (marker_keys l)))%nat.
Proof.
  intros Hf Hp Hl Hw. rewrite (sid_compiler_ok input output code m l w Hf Hp Hl Hw). cbn [fst].
  destruct (init_transformer_fields (wfs w) (wclient w)) as (_ & _ & Hca & Hch).
  cbn [write_file after_pass wclient].
  rewrite (run_sites_calls gen (fun c => length (chat_sent c)) (generate_function_requests py_compiles)).
  now rewrite Hch, Hca.
Qed.

(** C22. A marker whose argument is not a literal ([sid(x)], or
    [sid(1)] whose [.replace] does not exist): the [AttributeError] of
    the pass is not caught, the run ends with it, and no output file is
    written, whatever the markers before it generated. *)
Theorem sid_compiler_crash (input output code : string) (m : pymodule) (w : world) :
  files w input = Some code -> py_parse code = Some m -> sites_module m = None ->
  snd (compile input output w) = Exc AttributeError /\
  written (fst (compile input output w)) = written w.
Proof.
  intros Hf Hp Hl. unfold sid_compiler. rewrite Hf, Hp.
  destruct (proj2 (visit_module_refines_all gen m) Hl (init_transformer (wfs w) (wclient w)))
    as [t Ht].
  rewrite Ht. split; reflexivity.
Qed.

(** C26. The failure paths of [sid_compiler]: an unreadable input is
    logged and the run returns normally with nothing else done; a
    [SyntaxError] of [ast.parse] is not caught and ends the run before
    the cache is loaded or a token fetched; an output file that cannot
    be opened is logged after the pass, whose generated code stays in
    the cache file. *)
Theorem sid_compiler_failures (input output code : string) (m : pymodule) (l : list site) (w : world) :
  (files w input = None -> compile input output w = (add_wlog LReadFailed w, Ok tt)) /\
  (files w input = Some code -> py_parse code = None -> compile input output w = (w, Exc SyntaxError)) /\
  (files w input = Some code -> py_parse code = Some m -> sites_module m = Some l ->
   writable w output = false ->
   compile input output w =
     (add_wlog LWriteFailed (after_pass w (run_sites gen l (init_transformer (wfs w) (wclient w)))), Ok tt)).
Proof.
  unfold sid_compiler. split; [|split].
  - intros Hf. now rewrite Hf.
  - intros Hf Hp. now rewrite Hf, Hp.
  - intros Hf Hp Hl Hw. rewrite Hf, Hp, (proj1 (visit_module_refines_all _ m) l _ Hl). cbn -[run_sites].
    now rewrite Hw.
Qed.
End Batch.

(** ** Command line and interactive mode *)

(** C24. The batch compiler runs exactly for two positional arguments,
    both non-empty; one argument, or an empty one, falls through to the
    interactive mode, and three or more are a usage error. *)
Theorem main_mode_cases (args : list string) (i o : string) :
  (main_mode args = Batch i o <-> args = [i; o] /\ i <> "" /\ o <> "") /\
  (main_mode args = UsageError <-> (3 <= length args)%nat).
Proof.
  split.
  - destruct args as [|a [|b [|c r]]]; simpl; try (split; [discriminate | intros [H _]; discriminate]).
    destruct (String.eqb_spec a ""), (String.eqb_spec b ""); simpl; split; intros H;
      first [ discriminate | (inversion H; subst; auto; fail)
            | (destruct H as (H' & ? & ?); inversion H'; subst; first [congruence | reflexivity]) ].
  - destruct args as [|a [|b [|c r]]]; simpl;
      [split; [discriminate | lia] .. | | split; [lia | reflexivity]].
    destruct ((a =? "") || (b =? ""))%bool; split; (discriminate || lia).
Qed.

(** C25. Interactive mode never consults or saves the cache: one request
    reaches the chat endpoint for every description, even one whose text
    is cached, the cache file and the output files are untouched. *)
Theorem interactive_mode_uncached (py_compiles : string -> bool) (description : string) (w : world) :
  let w' := interactive_mode py_compiles description w in
  wfs w' = wfs w /\ written w' = written w /\
  length (chat_sent (wclient w')) = S (length (chat_sent (wclient w))).
Proof.
  unfold interactive_mode. destruct (init_transformer_fields (wfs w) (wclient w)) as (_ & _ & _ & Hc).
  pose proof (generate_function_requests py_compiles
                (PStr (space_to_underscore description)) (PStr description)
                (gstate (init_transformer (wfs w) (wclient w)))) as Hr.
  destruct (generate_function _ _ _ _) as [[c' evs] code]. cbn [fst] in Hr.
  cbn [wfs written wclient]. rewrite Hr, Hc. auto.
Qed.
