(* ===== verification/Scenarios.v ===== *)
(** * Scenarios: concrete runs that witness the driver theorems

    Concrete worlds on which the hypotheses of the theorems of
    [Driver.v] hold: the example of the specification
    ([result = sid("add two numbers")], no cache file), a program whose
    two markers have keys that Python's [==] identifies, a marker whose
    argument is a variable, and a backend whose clock stands still,
    whose token endpoint answers a token and whose chat endpoint gives
    one fixed reply.  [ast.parse], [compile] and [astunparse.unparse]
    are fixed functions here. *)

From Stdlib Require Import String Ascii List ZArith QArith Bool.
From S2P Require Import Prelude PyVal PyDict Repr Cache PyAst Transformer Fence Client Driver.
Import ListNotations.

Local Open Scope string_scope.

Definition nl : string := String (Ascii.ascii_of_nat 10) EmptyString.
Definition add2 : string := ("def add_two_numbers(a,b):" ++ nl ++ " return a+b")%string.

Definition sid_call (pos : position) (args : list node) : node :=
  Call pos (Name (PStr "sid")) args [].
Definition lit (s : string) : node := Constant (PStr s).

(** [result = sid("add two numbers")] *)
Definition m_add : pymodule :=
  PyModule [Assign [Name (PStr "result")] (sid_call (mk_pos 1 9) [lit "add two numbers"])].

Definition fs0 : fsys := mk_fsys None true.

(** [f = sid(1, "d"); g = sid(True, "d")] *)
Definition m_one_true : pymodule :=
  PyModule [Assign [Name (PStr "f")] (sid_call (mk_pos 1 4) [Constant (PInt 1%Z); lit "d"]);
            Assign [Name (PStr "g")] (sid_call (mk_pos 2 4) [Constant (PBool true); lit "d"])].

(** [z = sid(x)] with a variable [x] *)
Definition m_nonliteral : pymodule :=
  PyModule [Assign [Name (PStr "z")] (sid_call (mk_pos 1 4) [Name (PStr "x")])].

(** ** Environments *)

(** A backend whose clock stands still at 0, whose token endpoint
    answers [{"token": "tok"}] and whose chat endpoint answers [answer]
    with status [st]. *)
Definition backend_client (st : Z) (answer : string) : client :=
  mk_client (fun _ => 0%Q) 0 TokNone 0 (fun _ => TRStatus 200 (TPJson (Some "tok"))) 0
            (fun _ => CRStatus st (Some answer)) [].

(** The input file [in.py] holds [src]; every path is writable. *)
Definition w0 (src : string) (fs : fsys) (c : client) : world :=
  mk_world (fun p => if String.eqb p "in.py" then Some src else None) (fun _ => true) [] fs c [] [].

Definition src_add : string := "result = sid('add two numbers')".

(** [z = sid(x)] *)
Definition src_nonliteral : string := "z = sid(x)".

(** ** A second run *)

Definition comp : string -> string -> world -> world * res unit :=
  sid_compiler (fun _ => true) (fun _ => Some m_add) (fun _ => EmptyString).

Definition w_first : world := w0 src_add fs0 (backend_client 200 add2).

Lemma sid_compiler_rerun_witness :
  files w_first "in.py" = Some src_add /\ (fun _ => Some m_add) src_add = Some m_add /\
  sites_module m_add = Some [SiteDesc (mk_pos 1 9) "add two numbers"] /\
  writable w_first "out.py" = true /\ cache_writable (wfs w_first) = true /\
  cache_inv (fst (load_cache (wfs w_first))) /\
  files (fst (comp "in.py" "out.py" w_first)) "in.py" = Some src_add /\
  writable (fst (comp "in.py" "out.py" w_first)) "out.py" = true /\
  wfs (fst (comp "in.py" "out.py" w_first)) = wfs (fst (comp "in.py" "out.py" w_first)) /\
  let (w1, r1) := comp "in.py" "out.py" w_first in
  let (w3, r2) := comp "in.py" "out.py" (fst (comp "in.py" "out.py" w_first)) in
  r1 = Ok tt /\ r2 = Ok tt /\
  chat_sent (wclient w3) = chat_sent (wclient (fst (comp "in.py" "out.py" w_first))) /\
  wfs w3 = wfs (fst (comp "in.py" "out.py" w_first)) /\
  exists text, written w1 = (written w_first ++ [("out.py", text)])%list /\
               written w3 = (written (fst (comp "in.py" "out.py" w_first)) ++ [("out.py", text)])%list.
Proof.
  assert (Hi : cache_inv (fst (load_cache (wfs w_first)))) by (split; [constructor | exact I]).
  do 5 (split; [reflexivity |]). split; [exact Hi |].
  split; [vm_compute; reflexivity |]. split; [vm_compute; reflexivity |]. split; [reflexivity |].
  exact (sid_compiler_rerun (fun _ => true) (fun _ => Some m_add) (fun _ => EmptyString)
           "in.py" "out.py" src_add m_add [SiteDesc (mk_pos 1 9) "add two numbers"]
           w_first (fst (comp "in.py" "out.py" w_first))
           eq_refl eq_refl eq_refl eq_refl eq_refl Hi eq_refl eq_refl eq_refl).
Defined.

(** ** Requests per run *)

Definition l_one_true : list site :=
  [SiteNamed (mk_pos 1 4) (PInt 1%Z) (PStr "d"); SiteNamed (mk_pos 2 4) (PBool true) (PStr "d")].

Lemma sid_compiler_requests_witness :
  files (w0 src_add fs0 (backend_client 200 add2)) "in.py" = Some src_add /\
  (fun _ => Some m_one_true) src_add = Some m_one_true /\
  sites_module m_one_true = Some l_one_true /\
  writable (w0 src_add fs0 (backend_client 200 add2)) "out.py" = true /\
  length (misses (map fst (fst (load_cache fs0))) (marker_keys l_one_true)) = 1%nat /\
  length (chat_sent (wclient (fst (sid_compiler (fun _ => true) (fun _ => Some m_one_true)
            (fun _ => EmptyString) "in.py" "out.py" (w0 src_add fs0 (backend_client 200 add2)))))) =
  (length (chat_sent (wclient (w0 src_add fs0 (backend_client 200 add2)))) +
   length (misses (map fst (fst (load_cache (wfs (w0 src_add fs0 (backend_client 200 add2))))))
             (marker_keys l_one_true)))%nat.
Proof.
  do 5 (split; [reflexivity |]).
  exact (sid_compiler_requests (fun _ => true) (fun _ => Some m_one_true) (fun _ => EmptyString)
           "in.py" "out.py" src_add m_one_true l_one_true (w0 src_add fs0 (backend_client 200 add2))
           eq_refl eq_refl eq_refl eq_refl).
Defined.

(** ** Backends with one reply *)

Definition comp_add : string -> string -> world -> world * res unit :=
  sid_compiler (fun _ => true) (fun _ => Some m_add) (fun _ => EmptyString).


Lemma sid_compiler_constant_backend_witness :
  files w_first "in.py" = Some src_add /\ (fun _ => Some m_add) src_add = Some m_add /\
  sites_module m_add = Some [SiteDesc (mk_pos 1 9) "add two numbers"] /\
  writable w_first "out.py" = true /\ cache_file (wfs w_first) = None /\
  cache_writable (wfs w_first) = true /\
  (forall n, chat_net (wclient w_first) n = CRStatus 200 (Some add2)) /\
  (fun _ => true) (extract_code add2) = true /\
  let (w', r) := comp_add "in.py" "out.py" w_first in
  r = Ok tt /\
  written w' = (written w_first ++
    [("out.py", (str_join dnl (repeat (extract_code add2)
                   (length (marker_keys [SiteDesc (mk_pos 1 9) "add two numbers"]))) ++
                 EmptyString)%string)])%list /\
  (forall k, In k (marker_keys [SiteDesc (mk_pos 1 9) "add two numbers"]) ->
             cache_lookup (fst (load_cache (wfs w'))) k = Some (extract_code add2)).
Proof.
  do 6 (split; [reflexivity |]). split; [intros n; reflexivity |]. split; [reflexivity |].
  exact (sid_compiler_constant_backend (fun _ => true) (fun _ => Some m_add) (fun _ => EmptyString)
           "in.py" "out.py" src_add add2 m_add [SiteDesc (mk_pos 1 9) "add two numbers"] w_first
           eq_refl eq_refl eq_refl eq_refl eq_refl eq_refl (fun n => eq_refl) eq_refl).
Defined.


(** ** A marker that is not a literal *)

Definition w_nonliteral : world := w0 src_nonliteral fs0 (backend_client 200 add2).

Lemma sid_compiler_crash_witness :
  files w_nonliteral "in.py" = Some src_nonliteral /\
  (fun _ => Some m_nonliteral) src_nonliteral = Some m_nonliteral /\
  sites_module m_nonliteral = None /\
  snd (sid_compiler (fun _ => true) (fun _ => Some m_nonliteral) (fun _ => EmptyString)
         "in.py" "out.py" w_nonliteral) = Exc AttributeError /\
  written (fst (sid_compiler (fun _ => true) (fun _ => Some m_nonliteral) (fun _ => EmptyString)
                  "in.py" "out.py" w_nonliteral)) = written w_nonliteral.
Proof.
  do 3 (split; [reflexivity |]).
  exact (sid_compiler_crash (fun _ => true) (fun _ => Some m_nonliteral) (fun _ => EmptyString)
           "in.py" "out.py" src_nonliteral m_nonliteral w_nonliteral eq_refl eq_refl eq_refl).
Defined.
